(** * pyoctopart: a shallow embedding of [octopart.py]

    The client is Python 2 code.  Python objects are embedded as the
    inductive [value]; a call that may raise returns a [result]; an
    endpoint call also returns the list of URLs it requested, so that
    "no request was issued" is the empty list.

    Conventions of the embedding:
    - a [dict] is an association list with distinct keys, in the order its
      keys are iterated; [dict_set] overwrites in place or appends; an
      object that the source changes in place is passed on as its new
      value (the objects handled are trees: JSON data and keyword
      arguments);
    - JSON numbers are integers (there is no float value; the only float
      of the source, [float("inf")], is the bound [NInf]); [VInt n] is the
      [int] [n] when [n] fits a machine word and the [long] [n] beyond
      (a [long] of small magnitude, as [5L], is not a value of the
      embedding);
    - [traceback.print_exc()] writes to stderr and is not modelled. *)

From Stdlib Require Import List String Ascii ZArith Bool Lia ZifyBool Arith
  DecimalString.
Import ListNotations.
Open Scope string_scope.
Open Scope Z_scope.
Open Scope list_scope.

(** ** Python values *)

Inductive pyclass :=
| ClsBrand | ClsCategory | ClsPart | ClsPartAttribute.

Unset Elimination Schemes.
Inductive value :=
| VNone
| VBool (b : bool)
| VInt (n : Z)
| VStr (s : string)
| VList (items : list value)
| VTuple (items : list value)
| VDict (entries : list (string * value))
| VObject (cls : pyclass) (attrs : list (string * value)).
Set Elimination Schemes.

Definition dict := list (string * value).

(** The type objects of the [types] module, and [type(v)]. *)
Inductive pytype :=
| NoneType | BooleanType | IntType | LongType | StringType | ListType
| TupleType | DictType | InstanceType (c : pyclass).

Definition pyclass_eqb (a b : pyclass) : bool :=
  match a, b with
  | ClsBrand, ClsBrand | ClsCategory, ClsCategory
  | ClsPart, ClsPart | ClsPartAttribute, ClsPartAttribute => true
  | _, _ => false
  end.

Definition pytype_eqb (a b : pytype) : bool :=
  match a, b with
  | NoneType, NoneType | BooleanType, BooleanType | IntType, IntType
  | LongType, LongType | StringType, StringType | ListType, ListType | TupleType, TupleType
  | DictType, DictType => true
  | InstanceType c, InstanceType c' => pyclass_eqb c c'
  | _, _ => false
  end.

(** [sys.maxint] (of a 64-bit build of the interpreter): an integer is an
    [int] when it fits a machine word, and a [long] beyond. *)
Definition maxint : Z := 9223372036854775807.

Definition machine_int (n : Z) : bool := (- maxint - 1 <=? n) && (n <=? maxint).

Definition type_of (v : value) : pytype :=
  match v with
  | VNone => NoneType
  | VBool _ => BooleanType
  | VInt n => if machine_int n then IntType else LongType
  | VStr _ => StringType
  | VList _ => ListType
  | VTuple _ => TupleType
  | VDict _ => DictType
  | VObject c _ => InstanceType c
  end.

(** [isinstance(v, basestring)] *)
Definition is_basestring (v : value) : bool :=
  match v with VStr _ => true | _ => false end.

(** Truth value of an object, as [if v:] tests it. *)
Definition truthy (v : value) : bool :=
  match v with
  | VNone => false
  | VBool b => b
  | VInt n => negb (n =? 0)
  | VStr s => negb (String.eqb s "")
  | VList l | VTuple l => match l with [] => false | _ => true end
  | VDict d => match d with [] => false | _ => true end
  | VObject _ _ => true
  end.

(** A member of an [arg_ranges] sequence: an int, or [float("inf")]. *)
Inductive num :=
| NInt (n : Z)
| NInf.

(** [range(n)], a list in Python 2. *)
Definition range (n : nat) : list num :=
  map (fun i => NInt (Z.of_nat i)) (seq 0 n).

Definition schema := list (string * pytype).
Definition ranges := list (string * list num).

(** ** Exceptions and results *)

Inductive exn :=
| TypeError
| NameError
| KeyError
| IndexError
| AttributeError
| RuntimeError
| ValueError
| UnicodeDecodeError
| URLError
| HTTPError (code : Z)
| OctopartException (arguments : value) (arg_types : schema)
                    (arg_ranges : ranges) (code : Z).

Inductive result (A : Type) :=
| Return (a : A)
| Raise (e : exn).

Arguments Return {A} a.
Arguments Raise {A} e.

Definition bind {A B} (m : result A) (k : A -> result B) : result B :=
  match m with
  | Return a => k a
  | Raise e => Raise e
  end.

Notation "x <- m ;; k" := (bind m (fun x => k))
  (at level 61, m at next level, right associativity).
Notation "' p <- m ;; k" := (bind m (fun x => let p := x in k))
  (at level 61, p pattern, m at next level, right associativity).

Section MapM.
Context {A B : Type} (f : A -> result B).

(** A loop that stops at the first exception. *)
Fixpoint mapM (l : list A) : result (list B) :=
  match l with
  | [] => Return []
  | a :: l' => b <- f a ;; r <- mapM l' ;; Return (b :: r)
  end.
End MapM.

(** The [code] attribute of an [OctopartException]; [None] for any other
    outcome. *)
Definition error_code {A} (r : result A) : option Z :=
  match r with
  | Raise (OctopartException _ _ _ c) => Some c
  | _ => None
  end.

(** [OctopartException.errors] *)
Definition errors : list (Z * string) :=
  [ (0, "Required argument missing from method call.");
    (1, "Passed an invalid argument for this method.");
    (2, "Malformed argument.");
    (3, "An argument was passed more than once.");
    (4, "Numeric argument value out of valid range.");
    (5, "String argument outside of allowed length.");
    (6, "Value of (start+limit) in a bom/match line argument exceeds 100.");
    (7, "Unexpected HTTP Error 404");
    (8, "Unexpected HTTP Error 503") ].

(** ** Dictionaries *)

Fixpoint lookup {A} (k : string) (d : list (string * A)) : option A :=
  match d with
  | [] => None
  | (k', v) :: d' => if String.eqb k k' then Some v else lookup k d'
  end.

Definition dict_mem {A} (k : string) (d : list (string * A)) : bool :=
  match lookup k d with Some _ => true | None => false end.

(** [d[k] = v] *)
Fixpoint dict_set (d : dict) (k : string) (v : value) : dict :=
  match d with
  | [] => [(k, v)]
  | (k', v') :: d' =>
      if String.eqb k k' then (k, v) :: d' else (k', v') :: dict_set d' k v
  end.

Fixpoint dict_remove (d : dict) (k : string) : dict :=
  match d with
  | [] => []
  | (k', v') :: d' =>
      if String.eqb k k' then d' else (k', v') :: dict_remove d' k
  end.

(** [d.pop(k)] *)
Definition dict_pop (d : dict) (k : string) : result (value * dict) :=
  match lookup k d with
  | Some v => Return (v, dict_remove d k)
  | None => Raise KeyError
  end.

Definition keys (d : dict) : list string := map fst d.

(** [v[k]] for a string key [k]. *)
Definition subscript (v : value) (k : string) : result value :=
  match v with
  | VDict d => match lookup k d with Some x => Return x | None => Raise KeyError end
  | _ => Raise TypeError
  end.

(** [v.get(k, default)] *)
Definition get_default (v : value) (k : string) (default : value) : result value :=
  match v with
  | VDict d => match lookup k d with Some x => Return x | None => Return default end
  | _ => Raise AttributeError
  end.

(** [v.keys()] *)
Definition keys_of (v : value) : result (list string) :=
  match v with
  | VDict d => Return (keys d)
  | _ => Raise AttributeError
  end.

(** The items a [for x in v] loop visits. *)
Definition iterate (v : value) : result (list value) :=
  match v with
  | VList l | VTuple l => Return l
  | VDict d => Return (map VStr (keys d))
  | VStr s => Return (map (fun c => VStr (String c "")) (list_ascii_of_string s))
  | _ => Raise TypeError
  end.

(** ** Argument binding

    A call binds its actuals to the formals of the [def].  No method of
    the source has defaults or a [*args] formal, so binding fails with a
    [TypeError] unless every formal receives exactly one value; keywords
    that name no formal go to the [**kwargs] dictionary when the [def]
    has one. *)

Fixpoint bind_keywords (unbound : list string) (varkw : bool) (kw : dict)
  (bound extra : dict) : result (dict * dict) :=
  match kw with
  | [] =>
      if forallb (fun f => dict_mem f bound) unbound
      then Return (bound, extra) else Raise TypeError
  | (k, v) :: kw' =>
      if dict_mem k bound then Raise TypeError
      else if existsb (String.eqb k) unbound
           then bind_keywords unbound varkw kw' (bound ++ [(k, v)]) extra
           else if varkw
                then bind_keywords unbound varkw kw' bound (extra ++ [(k, v)])
                else Raise TypeError
  end.

Definition bind_args (formals : list string) (varkw : bool)
  (pos : list value) (kw : dict) : result (dict * dict) :=
  if (List.length formals <? List.length pos)%nat then Raise TypeError
  else bind_keywords (skipn (List.length pos) formals) varkw kw
         (combine formals pos) [].

(** A call [obj.m(a1, ..., an)] of a function defined in the class body:
    the instance is passed as the first positional actual. *)
Definition accepts (formals : list string) (nargs : nat) : bool :=
  (List.length formals =? S nargs)%nat.

Definition bound_call {A} (formals : list string) (nargs : nat)
  (body : result A) : result A :=
  if accepts formals nargs then body else Raise TypeError.

(** ** More object operations *)

(** [v[k] = x] for a string key [k]. *)
Definition setitem (v : value) (k : string) (x : value) : result value :=
  match v with
  | VDict d => Return (VDict (dict_set d k x))
  | _ => Raise TypeError
  end.

(** [k in v] for a string key [k] and a dictionary [v]. *)
Definition contains (v : value) (k : string) : result bool :=
  match v with
  | VDict d => Return (dict_mem k d)
  | _ => Raise TypeError
  end.

(** [v[-1]] *)
Definition last_item (v : value) : result value :=
  match v with
  | VStr s =>
      match rev (list_ascii_of_string s) with
      | c :: _ => Return (VStr (String c ""))
      | [] => Raise IndexError
      end
  | VList l | VTuple l =>
      match rev l with
      | x :: _ => Return x
      | [] => Raise IndexError
      end
  | VDict _ => Raise KeyError
  | _ => Raise TypeError
  end.

(** [v[0:-1]] *)
Definition drop_last (v : value) : result value :=
  match v with
  | VStr s => Return (VStr (string_of_list_ascii (removelast (list_ascii_of_string s))))
  | VList l => Return (VList (removelast l))
  | VTuple l => Return (VTuple (removelast l))
  | _ => Raise TypeError
  end.

(** [v == 'Z']-style comparison of an object with a string literal. *)
Definition eq_str (v : value) (s : string) : bool :=
  match v with
  | VStr s' => String.eqb s' s
  | _ => false
  end.

(** Reading a name inside a function body: the name is a local of the
    function, or else unbound (none of the names looked up this way is
    a global of the module or a builtin). *)
Definition load_name (locals : dict) (name : string) : result value :=
  match lookup name locals with
  | Some v => Return v
  | None => Raise NameError
  end.

(** A loop [for x in seq: body] whose body updates the object [x] in
    place: the sequence afterwards holds the updated objects. *)
Definition for_each_in_place (body : value -> result value) (seq : value)
  : result value :=
  match seq with
  | VList l => l' <- mapM body l ;; Return (VList l')
  | VTuple l => l' <- mapM body l ;; Return (VTuple l')
  | _ => items <- iterate seq ;; _ <- mapM body items ;; Return seq
  end.

(** Attribute [name] of an instance. *)
Definition getattr (obj : value) (name : string) : result value :=
  match obj with
  | VObject _ attrs =>
      match lookup name attrs with
      | Some v => Return v
      | None => Raise AttributeError
      end
  | _ => Raise AttributeError
  end.

(** ** Domain model *)

Module OctopartBrand.

(** [__init__(self, id, dispname, homepage)] *)
Definition init (id dispname homepage : value) : result value :=
  Return (VObject ClsBrand
            [("id", id); ("displayname", dispname); ("homepage_url", homepage)]).

Definition new_from_dict (brand_dict : value) : result value :=
  id <- subscript brand_dict "id" ;;
  displayname <- subscript brand_dict "displayname" ;;
  homepage_url <- subscript brand_dict "homepage_url" ;;
  init id displayname homepage_url.

End OctopartBrand.

Module OctopartCategory.

Definition init (id parent_id nodename images children_ids ancestor_ids
                   ancestors num_parts : value) : result value :=
  Return (VObject ClsCategory
            [("id", id); ("parent_id", parent_id); ("nodename", nodename);
             ("images", images); ("children_ids", children_ids);
             ("ancestor_ids", ancestor_ids); ("ancestors", ancestors);
             ("num_parts", num_parts)]).

Definition new_from_dict (category_dict : value) : result value :=
  id <- subscript category_dict "id" ;;
  parent_id <- subscript category_dict "parent_id" ;;
  nodename <- subscript category_dict "nodename" ;;
  images <- subscript category_dict "images" ;;
  children_ids <- subscript category_dict "children_ids" ;;
  ancestor_ids <- subscript category_dict "ancestor_ids" ;;
  ancestors <- get_default category_dict "ancestors" (VList []) ;;
  num_parts <- subscript category_dict "num_parts" ;;
  init id parent_id nodename images children_ids ancestor_ids ancestors num_parts.

End OctopartCategory.

Module OctopartPartAttribute.

(** [__init__(self, fieldname, displayname, type, metadata)]; its first
    statement reads the name [fieldanme]. *)
Definition init (fieldname displayname type metadata : value) : result value :=
  let locals := [("fieldname", fieldname); ("displayname", displayname);
                 ("type", type); ("metadata", metadata)] in
  a1 <- load_name locals "fieldanme" ;;
  a2 <- load_name locals "displayname" ;;
  a3 <- load_name locals "type" ;;
  a4 <- load_name locals "metadata" ;;
  Return (VObject ClsPartAttribute
            [("fieldname", a1); ("displayname", a2); ("type", a3);
             ("metadata", a4)]).

Definition new_from_dict (attribute_dict : value) : result value :=
  fieldname <- subscript attribute_dict "fieldname" ;;
  displayname <- subscript attribute_dict "displayname" ;;
  type <- subscript attribute_dict "type" ;;
  metadata <- get_default attribute_dict "metadata" (VDict []) ;;
  init fieldname displayname type metadata.

End OctopartPartAttribute.

Module OctopartPart.

(** [datetime.strptime(s, fmt)]: [datetime] is the module (line 28,
    [import datetime]), and the module has no attribute [strptime]. *)
Definition datetime_strptime (s : value) (fmt : string) : result value :=
  Raise AttributeError.

(** The body of the loop over [offers] (lines 97-104). *)
Definition convert_offer (offer : value) : result value :=
  supplier <- subscript offer "supplier" ;;
  offer <- (if pytype_eqb (type_of supplier) DictType
            then b <- OctopartBrand.new_from_dict supplier ;;
                 setitem offer "supplier" b
            else Return offer) ;;
  has_ts <- contains offer "update_ts" ;;
  if has_ts : bool then
    ts <- subscript offer "update_ts" ;;
    last <- last_item ts ;;
    offer <- (if eq_str last "Z"
              then ts' <- drop_last ts ;; setitem offer "update_ts" ts'
              else Return offer) ;;
    ts <- subscript offer "update_ts" ;;
    dt <- datetime_strptime ts "%Y-%m-%dT%H:M:S" ;;
    setitem offer "update_ts" dt
  else Return offer.

(** The body of the loop over [specs] (lines 107-108). *)
Definition convert_spec (spec : value) : result value :=
  attribute <- subscript spec "attribute" ;;
  if pytype_eqb (type_of attribute) DictType
  then a <- OctopartPartAttribute.new_from_dict attribute ;;
       setitem spec "attribute" a
  else Return spec.

(** The loop [for x in part_dict.get(key, []): body]: the list object
    stays in [part_dict], and its items are updated in place. *)
Definition convert_items (part_dict : value) (key : string)
  (body : value -> result value) : result value :=
  seq <- get_default part_dict key (VList []) ;;
  seq' <- for_each_in_place body seq ;;
  present <- contains part_dict key ;;
  if present : bool then setitem part_dict key seq' else Return part_dict.

(** [__init__(self, part_dict)] *)
Definition init (part_dict : value) : result value :=
  manufacturer <- subscript part_dict "manufacturer" ;;
  part_dict <- (if pytype_eqb (type_of manufacturer) DictType
                then b <- OctopartBrand.new_from_dict manufacturer ;;
                     setitem part_dict "manufacturer" b
                else Return part_dict) ;;
  part_dict <- convert_items part_dict "offers" convert_offer ;;
  part_dict <- convert_items part_dict "specs" convert_spec ;;
  uid <- subscript part_dict "uid" ;;
  mpn <- subscript part_dict "mpn" ;;
  manufacturer <- subscript part_dict "manufacturer" ;;
  detail_url <- subscript part_dict "detail_url" ;;
  avg_price <- get_default part_dict "avg_price" VNone ;;
  avg_avail <- get_default part_dict "avg_avail" VNone ;;
  market_status <- get_default part_dict "market_status" VNone ;;
  num_suppliers <- get_default part_dict "num_suppliers" VNone ;;
  num_authsuppliers <- get_default part_dict "num_authsuppliers" VNone ;;
  short_description <- get_default part_dict "short_description" (VStr "") ;;
  category_ids <- get_default part_dict "category_ids" (VList []) ;;
  images <- get_default part_dict "images" (VList []) ;;
  datasheets <- get_default part_dict "datasheets" (VList []) ;;
  descriptions <- get_default part_dict "descriptions" (VList []) ;;
  hyperlinks <- get_default part_dict "hyperlinks" (VDict []) ;;
  offers <- get_default part_dict "offers" (VList []) ;;
  specs <- get_default part_dict "specs" (VList []) ;;
  Return (VObject ClsPart
            [("uid", uid); ("mpn", mpn); ("manufacturer", manufacturer);
             ("detail_url", detail_url); ("avg_price", avg_price);
             ("avg_avail", avg_avail); ("market_status", market_status);
             ("num_suppliers", num_suppliers);
             ("num_authsuppliers", num_authsuppliers);
             ("short_description", short_description);
             ("category_ids", category_ids); ("images", images);
             ("datasheets", datasheets); ("descriptions", descriptions);
             ("hyperlinks", hyperlinks); ("offers", offers);
             ("specs", specs)]).

End OctopartPart.

(** ** The interpreter and the network

    What the client needs from outside the repository and the model does
    not fix: the HTTP round trip, the JSON parser, the UTF-8 codec, the
    text [str()] gives for a container or an instance, and the keys that
    the iterator of a dictionary yields after the loop over it has changed
    the keys of the dictionary.  A store of a new key can rebuild the hash
    table, and the iterator, which walks the slots of the table, then
    skips keys or yields keys again: [rehashed args todo] are the keys it
    goes on to yield, for the dictionary [args] after the change and the
    keys [todo] it had left before. *)

Record runtime := {
  urlopen_read : string -> result string;
  json_loads : string -> result value;
  utf8_decode : string -> result (list N);
  repr : value -> string;
  rehashed : dict -> list string -> list string
}.

(** [str(n)] for an int. *)
Definition str_int (n : Z) : string := NilZero.string_of_int (Z.to_int n).

Definition quote : ascii := "034"%char.
Definition backslash : ascii := "092"%char.

(** ** [json.dumps] *)

Module json.

Definition hex_digit (n : N) : ascii :=
  nth (N.to_nat n)
    ["0"; "1"; "2"; "3"; "4"; "5"; "6"; "7"; "8"; "9";
     "a"; "b"; "c"; "d"; "e"; "f"]%char "0"%char.

(** ['\\u{0:04x}'.format(n)] *)
Definition u_escape (n : N) : string :=
  String backslash
    (String "u"
       (String (hex_digit (n / 4096 mod 16))
          (String (hex_digit (n / 256 mod 16))
             (String (hex_digit (n / 16 mod 16))
                (String (hex_digit (n mod 16)) ""))))).

(** The replacement of one code point by [ESCAPE_ASCII.sub(replace, s)]. *)
Definition escape (n : N) : string :=
  if (n =? 34)%N then String backslash (String quote "")
  else if (n =? 92)%N then String backslash (String backslash "")
  else if (n =? 8)%N then String backslash "b"
  else if (n =? 12)%N then String backslash "f"
  else if (n =? 10)%N then String backslash "n"
  else if (n =? 13)%N then String backslash "r"
  else if (n =? 9)%N then String backslash "t"
  else if ((n <? 32) || (126 <? n))%N then
    if (n <? 65536)%N then u_escape n
    else
      let m := (n - 65536)%N in
      (u_escape (N.lor 55296 (N.land (N.shiftr m 10) 1023))
       ++ u_escape (N.lor 56320 (N.land m 1023)))%string
  else String (ascii_of_N n) "".

Section Encoder.
Variable rt : runtime.
(** [separators=(item_separator, key_separator)] *)
Variables item_separator key_separator : string.

Definition encode_basestring_ascii (s : string) : result string :=
  let bytes := list_ascii_of_string s in
  cps <- (if existsb (fun c => (128 <=? N_of_ascii c)%N) bytes
          then utf8_decode rt s
          else Return (map N_of_ascii bytes)) ;;
  Return (String quote
            (String.concat "" (map escape cps) ++ String quote "")%string).

Fixpoint dumps (v : value) : result string :=
  match v with
  | VNone => Return "null"
  | VBool b => Return (if b then "true" else "false")
  | VInt n => Return (str_int n)
  | VStr s => encode_basestring_ascii s
  | VList l | VTuple l =>
      parts <- mapM dumps l ;;
      Return ("[" ++ String.concat item_separator parts ++ "]")%string
  | VDict d =>
      parts <- mapM (fun kv =>
                       k <- encode_basestring_ascii (fst kv) ;;
                       x <- dumps (snd kv) ;;
                       Return (k ++ key_separator ++ x)%string) d ;;
      Return ("{" ++ String.concat item_separator parts ++ "}")%string
  | VObject _ _ => Raise TypeError
  end.
End Encoder.

End json.

(** [str(v)] *)
Definition str (rt : runtime) (v : value) : string :=
  match v with
  | VStr s => s
  | VInt n => str_int n
  | VBool b => if b then "True" else "False"
  | VNone => "None"
  | _ => repr rt v
  end.

(** What a call does: the URLs it requested, in order, and its outcome. *)
Definition io (A : Type) : Type := (list string * result A)%type.

(** [a + b] *)
Definition add (a b : value) : result value :=
  match a, b with
  | VInt x, VInt y => Return (VInt (x + y))
  | VInt x, VBool y => Return (VInt (x + Z.b2z y))
  | VBool x, VInt y => Return (VInt (Z.b2z x + y))
  | VBool x, VBool y => Return (VInt (Z.b2z x + Z.b2z y))
  | VStr x, VStr y => Return (VStr (x ++ y))
  | VList x, VList y => Return (VList (x ++ y))
  | VTuple x, VTuple y => Return (VTuple (x ++ y))
  | _, _ => Raise TypeError
  end.

(** [v > n] for an int literal [n]: Python 2 orders [None] below every
    number and every other object above. *)
Definition gt_int (v : value) (n : Z) : bool :=
  match v with
  | VInt x => n <? x
  | VBool x => n <? Z.b2z x
  | VNone => false
  | _ => true
  end.

(** ** Validation *)

(** [v == n] for a member [n] of a range. *)
Definition eq_num (v : value) (n : num) : bool :=
  match v, n with
  | VInt a, NInt b => a =? b
  | VBool a, NInt b => Z.b2z a =? b
  | _, _ => false
  end.

(** [n < m] and [n > m] for an int [n] and a member [m] of a range. *)
Definition lt_num (n : Z) (m : num) : bool :=
  match m with NInt b => n <? b | NInf => true end.

Definition gt_num (n : Z) (m : num) : bool :=
  match m with NInt b => b <? n | NInf => false end.

(** [len(v)] *)
Definition len (v : value) : result Z :=
  match v with
  | VStr s => Return (Z.of_nat (String.length s))
  | VList l | VTuple l => Return (Z.of_nat (List.length l))
  | VDict d => Return (Z.of_nat (List.length d))
  | _ => Raise TypeError
  end.

(** [seq[i]] *)
Definition item {A} (seq : list A) (i : nat) : result A :=
  match nth_error seq i with
  | Some x => Return x
  | None => Raise IndexError
  end.

Definition mem (k : string) (l : list string) : bool :=
  existsb (String.eqb k) l.

Definition issubset (a b : list string) : bool :=
  forallb (fun k => mem k b) a.

Module Octopart.

Definition api_url : string := "http://octopart.com/api/v2/".

(** The instance attributes ([__slots__]). *)
Record client := {
  apikey : value;
  callback : value;
  pretty_print : value
}.

(** [__init__(self, apikey=None, callback=None, pretty_print=False)] *)
Definition init (apikey callback pretty_print : option value) : client :=
  {| apikey := match apikey with Some v => v | None => VNone end;
     callback := match callback with Some v => v | None => VNone end;
     pretty_print := match pretty_print with Some v => v | None => VBool false end |}.

(** *** [__validate_args] *)

(** The formals of [def __validate_args(args, arg_types, arg_ranges)]. *)
Definition validate_args_formals : list string :=
  ["args"; "arg_types"; "arg_ranges"].

(** The body of the loop over [args_set] (lines 174-185). *)
Definition validate_arg (args : value) (arg_types : schema)
  (arg_ranges : ranges) (key : string) : result unit :=
  let fail c := Raise (OctopartException args arg_types arg_ranges c) in
  match lookup key arg_types with
  | None => Raise KeyError
  | Some t =>
      v <- subscript args key ;;
      _ <- (if pytype_eqb t StringType
            then if is_basestring v then Return tt else fail 2
            else if pytype_eqb (type_of v) t then Return tt else fail 2) ;;
      match lookup key arg_ranges with
      | None => Return tt
      | Some rng =>
          if pytype_eqb t StringType then
            n <- len v ;;
            lo <- item rng 0 ;;
            if lt_num n lo then fail 5
            else hi <- item rng 1 ;;
                 if gt_num n hi then fail 5 else Return tt
          else if existsb (eq_num v) rng then Return tt else fail 4
      end
  end.

(** The function as defined: its three formals are [args], [arg_types]
    and [arg_ranges]. *)
Definition validate_args (args : value) (arg_types : schema)
  (arg_ranges : ranges) : result unit :=
  let valid_args := map fst arg_types in
  ks <- keys_of args ;;
  let args_set := nodup string_dec ks in
  if negb (issubset args_set valid_args)
  then Raise (OctopartException args arg_types arg_ranges 1)
  else
    _ <- mapM (validate_arg args arg_types arg_ranges) args_set ;;
    if negb (List.length args_set =? List.length ks)%nat
    then Raise (OctopartException args arg_types arg_ranges 3)
    else Return tt.

(** The call [self.__validate_args(args, arg_types, arg_ranges)] that
    every endpoint makes: a method call with three actuals. *)
Definition call_validate_args (args : value) (arg_types : schema)
  (arg_ranges : ranges) : result unit :=
  bound_call validate_args_formals 3 (validate_args args arg_types arg_ranges).

(** *** [__translate_periods] *)

Definition translation : list (string * string) :=
  [ ("drilldown_include", "drilldown.include");
    ("drilldown_fieldname", "drilldown.fieldname");
    ("drilldown_facets_prefix", "drilldown.facets.prefix");
    ("drilldown_facets_start", "drilldown.facets.start");
    ("drilldown_facets_limit", "drilldown.facets.limit");
    ("drilldown_facets_sortby", "drilldown.facets.sortby");
    ("drilldown_facets_include_hits", "drilldown.facets.include_hits");
    ("optimize_return_stubs", "optimize.return_stubs");
    ("optimize_hide_datasheets", "optimize.hide_datasheets");
    ("optimize_hide_descriptions", "optimize.hide_descriptions");
    ("optimize_hide_images", "optimize.hide_images");
    ("optimize_hide_hide_offers", "optimize.hide_hide_offers");
    ("optimize_hide_hide_unauthorized_offers",
     "optimize.hide_hide_unauthorized_offers");
    ("optimize_hide_specs", "optimize.hide_specs") ].

(** Lines 267-268: [if key in translation:
    args[translation[key]] = args.pop(key)].  When the new name is
    already a key the dictionary shrinks, and the iterator of the
    enclosing loop then raises (dictionary changed size during
    iteration). *)
Definition rename_key (args : dict) (key : string) : result dict :=
  match lookup key translation with
  | None => Return args
  | Some key' =>
      '(v, args) <- dict_pop args key ;;
      if dict_mem key' args then Raise RuntimeError
      else Return (dict_set args key' v)
  end.

(** How deep the recursive calls of [__translate_periods] go into [v]:
    into the values that are dictionaries, and into the dictionaries that
    are items of a list value. *)
Definition nested_max (f : value -> nat) (x : value) : nat :=
  match x with
  | VDict _ => f x
  | VList l => list_max (map (fun a => match a with VDict _ => f a | _ => O end) l)
  | _ => O
  end.

Fixpoint nesting (v : value) : nat :=
  match v with
  | VDict d => S (list_max (map (fun kv => nested_max nesting (snd kv)) d))
  | _ => O
  end.

Section Loop.
Variable rt : runtime.
(** The recursive call [self.__translate_periods]. *)
Variable recur : value -> result value.

(** Lines 264-265, on one item [a] of a list: the callee changes the
    dictionary it is given in place, so the list holds the translated
    dictionary although the loop variable [a] alone is rebound. *)
Definition translate_item (a : value) : result value :=
  match a with
  | VDict _ => recur a
  | _ => Return a
  end.

(** Lines 260-265, on the value [x] that [args] holds at [key]. *)
Definition translate_nested (args : dict) (key : string) (x : value)
  : result dict :=
  match x with
  | VDict _ => x' <- recur x ;; Return (dict_set args key x')
  | VList l => l' <- mapM translate_item l ;;
               Return (dict_set args key (VList l'))
  | _ => Return args
  end.

(** The keys that the iterator goes on to yield once the loop has renamed
    a key: keys of the dictionary, each at most once, as the hash table
    of the interpreter has them. *)
Definition remaining (args : dict) (todo : list string) : list string :=
  filter (fun key => dict_mem key args)
    (nodup string_dec (rehashed rt args todo)).

(** The loop [for key in args] (lines 258-268), over the keys [todo] that
    the iterator has left.  As long as the loop stores values under keys
    that the dictionary has, the table keeps its shape and the iterator
    yields the keys in order, once each.  Once the loop has renamed a key
    (popped an alias and stored its value under the dotted name), the
    keys that the iterator yields are those the hash table gives it
    ([remaining]): it can skip a key, and it can yield one again.
    [renamings] bounds the renamings that are left: each takes an alias
    out of the dictionary for good, and the loop starts with the number
    of keys, so the bound is not reached. *)
Fixpoint translate_loop (renamings : nat) : list string -> dict -> result dict :=
  fix visit (todo : list string) (args : dict) {struct todo} : result dict :=
    match todo with
    | [] => Return args
    | key :: todo' =>
        x <- subscript (VDict args) key ;;
        args <- translate_nested args key x ;;
        args <- rename_key args key ;;
        if dict_mem key translation then
          match renamings with
          | S renamings' =>
              translate_loop renamings' (remaining args todo') args
          | O => Return args
          end
        else visit todo' args
    end.
End Loop.

(** [__translate_periods] on the dictionary object [args], with [depth]
    recursive calls allowed; it returns the object it was given, changed
    in place. *)
Fixpoint translate_periods_at (rt : runtime) (depth : nat) (args : value)
  : result value :=
  match depth with
  | O => Raise RuntimeError
  | S depth' =>
      match args with
      | VDict d =>
          d' <- translate_loop rt (translate_periods_at rt depth')
                  (List.length d) (keys d) d ;;
          Return (VDict d')
      | _ => Raise TypeError (* not reached: every call passes a dictionary *)
      end
  end.

(** The calls go no deeper than the dictionaries are nested, so the depth
    allowed here is not used up. *)
Definition translate_periods_obj (rt : runtime) (args : value) : result value :=
  translate_periods_at rt (S (nesting args)) args.

Definition translate_periods (rt : runtime) (args : dict) : result dict :=
  r <- translate_periods_obj rt (VDict args) ;;
  match r with
  | VDict d => Return d
  | _ => Raise TypeError
  end.

(** The formals of [def __translate_periods(self, args)] and the call
    [self.__translate_periods(kwargs)]. *)
Definition translate_periods_formals : list string := ["self"; "args"].

Definition call_translate_periods (rt : runtime) (kwargs : dict)
  : result dict :=
  bound_call translate_periods_formals 1 (translate_periods rt kwargs).

(** *** [__get] *)

Section Transport.
Variable rt : runtime.
Variable self : client.

(** The body of the loop over [args.items()] (lines 211-217). *)
Definition arg_string (kv : string * value) : result string :=
  let '(arg, val) := kv in
  v <- match val with
       | VBool b => Return (VInt (Z.b2z b))
       | VList _ => t <- json.dumps rt "," ":" val ;; Return (VStr t)
       | _ => Return val
       end ;;
  Return (arg ++ "=" ++ str rt v)%string.

(** Lines 202-207: the client options are stored into [args]. *)
Definition with_options (args : dict) : dict :=
  let args := if truthy (apikey self)
              then dict_set args "apikey" (apikey self) else args in
  let args := if truthy (callback self)
              then dict_set args "callback" (callback self) else args in
  if truthy (pretty_print self)
  then dict_set args "pretty_print" (pretty_print self) else args.

(** Lines 201-220: the request URL. *)
Definition request_url (method : string) (args : dict) : result string :=
  let req_url := (api_url ++ method)%string in
  if (0 <? List.length args)%nat then
    arg_strings <- mapM arg_string args ;;
    Return (req_url ++ "?" ++ String.concat "&" arg_strings)%string
  else Return req_url.

(** The formals of [def __get(self, method, args)]. *)
Definition get_formals : list string := ["self"; "method"; "args"].

(** [__get(self, method, args)]: the dictionary [args] as the call
    leaves it, the request, and the parsed response. *)
Definition get (method : string) (args : dict) : dict * io value :=
  let args := with_options args in
  match request_url method args with
  | Raise e => (args, ([], Raise e))
  | Return req_url =>
      (args, ([req_url],
              response <- urlopen_read rt req_url ;;
              json_loads rt response))
  end.

(** *** The endpoint methods *)

(** The handlers [except urllib2.HTTPError as e] of the endpoints; they
    differ in what a 404 does. *)
Definition http_error (on404 : result value) (args : value)
  (arg_types : schema) (arg_ranges : ranges) (e : exn) : result value :=
  match e with
  | HTTPError code =>
      if code =? 404 then on404
      else if code =? 503
           then Raise (OctopartException args arg_types arg_ranges 8)
           else Raise e
  | _ => Raise e
  end.

Definition not_found (args : value) (arg_types : schema)
  (arg_ranges : ranges) : result value :=
  Raise (OctopartException args arg_types arg_ranges 7).

(** The two [try] blocks every endpoint ends with: validation, whose
    [OctopartException] makes the method return [None], then the
    request; [respond] is what the method does with the outcome of
    [__get]. *)
Definition request (method : string) (args : dict) (arg_types : schema)
  (arg_ranges : ranges)
  (respond : value -> result value -> result value) : io value :=
  match call_validate_args (VDict args) arg_types arg_ranges with
  | Raise (OctopartException _ _ _ _) => ([], Return VNone)
  | Raise e => ([], Raise e)
  | Return _ =>
      if accepts get_formals 2 then
        let '(args, (urls, r)) := get method args in
        (urls, respond (VDict args) r)
      else ([], Raise TypeError)
  end.

(** [categories_get(self, id)] *)
Definition categories_get_types : schema := [("id", IntType)].

Definition categories_get_respond (args : value) (r : result value)
  : result value :=
  match r with
  | Raise e => http_error (Return VNone) args categories_get_types [] e
  | Return json_obj =>
      if truthy json_obj then OctopartCategory.new_from_dict json_obj
      else Return VNone
  end.

Definition categories_get (id : value) : io value :=
  let method := "categories/get" in
  let arg_types := categories_get_types in
  let arg_ranges := [] in
  let args := [("id", id)] in
  request method args arg_types arg_ranges categories_get_respond.

(** [categories_get_multi(self, ids)] *)
Definition categories_get_multi_types : schema := [("ids", ListType)].

Definition categories_get_multi_respond (args : value) (r : result value)
  : result value :=
  match r with
  | Raise e =>
      http_error (not_found args categories_get_multi_types [])
        args categories_get_multi_types [] e
  | Return json_obj =>
      if truthy json_obj then
        items <- iterate json_obj ;;
        categories <- mapM OctopartCategory.new_from_dict items ;;
        Return (VList categories)
      else Return (VList [])
  end.

Definition categories_get_multi (ids : value) : io value :=
  let method := "categories/get_multi" in
  let arg_types := categories_get_multi_types in
  let arg_ranges := [] in
  let args := [("ids", ids)] in
  request method args arg_types arg_ranges categories_get_multi_respond.

(** [categories_search(self, **args)] *)
Definition categories_search_types : schema :=
  [("q", StringType); ("start", IntType); ("limit", IntType);
   ("ancestor_id", IntType)].

Definition categories_search_respond (args : value) (r : result value)
  : result value :=
  match r with
  | Raise e =>
      http_error (not_found args categories_search_types [])
        args categories_search_types [] e
  | Return json_obj =>
      if truthy json_obj then
        results <- subscript json_obj "results" ;;
        items <- iterate results ;;
        categories <-
          mapM (fun result =>
                  it <- subscript result "item" ;;
                  new_category <- OctopartCategory.new_from_dict it ;;
                  highlight <- subscript result "highlight" ;;
                  Return (VList [new_category; highlight])) items ;;
        Return (VList categories)
      else Return (VList [])
  end.

Definition categories_search (args : dict) : io value :=
  let method := "categories/search" in
  let arg_types := categories_search_types in
  let arg_ranges := [] in
  request method args arg_types arg_ranges categories_search_respond.

(** A method that starts with [args = self.__translate_periods(kwargs)]
    and then stores its positional arguments into [args]. *)
Definition translated (kwargs : dict) (k : dict -> io value) : io value :=
  match call_translate_periods rt kwargs with
  | Raise e => ([], Raise e)
  | Return args => k args
  end.

Definition optimize_types : schema :=
  [("optimize.hide_datasheets", BooleanType);
   ("optimize.hide_descriptions", BooleanType);
   ("optimize.hide_images", BooleanType);
   ("optimize.hide_hide_offers", BooleanType);
   ("optimize.hide_hide_unauthorized_offers", BooleanType);
   ("optimize.hide_specs", BooleanType)].

(** [parts_get(self, uid, **kwargs)] *)
Definition parts_get_types : schema := ("uid", IntType) :: optimize_types.

Definition parts_get_respond (args : value) (r : result value)
  : result value :=
  match r with
  | Raise e => http_error (Return VNone) args parts_get_types [] e
  | Return json_obj =>
      if truthy json_obj then OctopartPart.init json_obj else Return VNone
  end.

Definition parts_get (uid : value) (kwargs : dict) : io value :=
  let method := "parts/get" in
  let arg_types := parts_get_types in
  let arg_ranges := [] in
  translated kwargs (fun args =>
    let args := dict_set args "uid" uid in
    request method args arg_types arg_ranges parts_get_respond).

(** [parts_get_multi(self, uids, **kwargs)] *)
Definition parts_get_multi_types : schema :=
  ("uids", StringType) :: optimize_types.

Definition parts_get_multi_respond (args : value) (r : result value)
  : result value :=
  match r with
  | Raise e =>
      http_error (not_found args parts_get_multi_types [])
        args parts_get_multi_types [] e
  | Return json_obj =>
      if truthy json_obj then
        items <- iterate json_obj ;;
        parts <- mapM OctopartPart.init items ;;
        Return (VList parts)
      else Return (VList [])
  end.

Definition parts_get_multi (uids : value) (kwargs : dict) : io value :=
  let method := "parts/get_multi" in
  let arg_types := parts_get_multi_types in
  let arg_ranges := [] in
  translated kwargs (fun args =>
    let args := dict_set args "uids" uids in
    request method args arg_types arg_ranges parts_get_multi_respond).

(** [parts_search(self, **kwargs)] *)
Definition parts_search_types : schema :=
  [("q", StringType);
   ("start", IntType);
   ("limit", IntType);
   ("filters", ListType);
   ("rangedfilters", ListType);
   ("sortby", ListType);
   ("drilldown.include", BooleanType);
   ("drilldown.fieldname", StringType);
   ("drilldown.facets.prefix", StringType);
   ("drilldown.facets.start", IntType);
   ("drilldown.facets.limit", IntType);
   ("drilldown.facets.sortby", StringType);
   ("drilldown.facets.include_hits", BooleanType)] ++ optimize_types.

Definition parts_search_ranges : ranges :=
  [("start", range 1001);
   ("limit", range 101);
   ("drilldown.facets.start", range 1001);
   ("drilldown.facets.limit", range 101)].

Definition parts_search_respond (args : value) (r : result value)
  : result value :=
  match r with
  | Raise e =>
      http_error (not_found args parts_search_types parts_search_ranges)
        args parts_search_types parts_search_ranges e
  | Return json_obj =>
      if truthy json_obj then
        results <- subscript json_obj "results" ;;
        items <- iterate results ;;
        parts <-
          mapM (fun result =>
                  it <- subscript result "item" ;;
                  new_part <- OctopartPart.init it ;;
                  highlight <- subscript result "highlight" ;;
                  Return (VList [new_part; highlight])) items ;;
        include <- get_default args "drilldown.include" VNone ;;
        if truthy include then
          drills <- subscript json_obj "drilldown" ;;
          items <- iterate drills ;;
          drilldown <-
            mapM (fun drill =>
                    a <- subscript drill "attribute" ;;
                    attribute <- OctopartPartAttribute.new_from_dict a ;;
                    setitem drill "attribute" attribute) items ;;
          Return (VTuple [VList parts; VList drilldown])
        else Return (VTuple [VList parts; VList []])
      else Return (VTuple [VList []; VList []])
  end.

Definition parts_search (kwargs : dict) : io value :=
  let method := "parts/search" in
  let arg_types := parts_search_types in
  let arg_ranges := parts_search_ranges in
  translated kwargs (fun args =>
    request method args arg_types arg_ranges parts_search_respond).

(** [parts_suggest(self, q, **args)] *)
Definition parts_suggest_types : schema :=
  [("q", StringType); ("limit", IntType)].

Definition parts_suggest_ranges : ranges :=
  [("q", [NInt 2; NInf]); ("limit", range 11)].

Definition parts_suggest_respond (args : value) (r : result value)
  : result value :=
  match r with
  | Raise e =>
      http_error (not_found args parts_suggest_types parts_suggest_ranges)
        args parts_suggest_types parts_suggest_ranges e
  | Return json_obj =>
      if truthy json_obj then
        results <- subscript json_obj "results" ;;
        items <- iterate results ;;
        parts <- mapM OctopartPart.init items ;;
        Return (VList parts)
      else Return (VList [])
  end.

Definition parts_suggest (q : value) (args : dict) : io value :=
  let method := "parts/suggest" in
  let arg_types := parts_suggest_types in
  let arg_ranges := parts_suggest_ranges in
  let args := dict_set args "q" q in
  request method args arg_types arg_ranges parts_suggest_respond.

(** [parts_match(self, manufacturer_name, mpn)] *)
Definition parts_match_types : schema :=
  [("manufacturer_name", StringType); ("mpn", StringType)].

Definition parts_match_respond (args : value) (r : result value)
  : result value :=
  match r with
  | Raise e =>
      http_error (not_found args parts_match_types [])
        args parts_match_types [] e
  | Return json_obj =>
      if truthy json_obj then Return json_obj else Return VNone
  end.

Definition parts_match (manufacturer_name mpn : value) : io value :=
  let method := "parts/match" in
  let arg_types := parts_match_types in
  let arg_ranges := [] in
  let args := [("manufacturer_name", manufacturer_name); ("mpn", mpn)] in
  request method args arg_types arg_ranges parts_match_respond.

(** [partattributes_get(self, fieldname)] *)
Definition partattributes_get_types : schema := [("fieldname", StringType)].

Definition partattributes_get_respond (args : value) (r : result value)
  : result value :=
  match r with
  | Raise e => http_error (Return VNone) args partattributes_get_types [] e
  | Return json_obj =>
      if truthy json_obj then OctopartPartAttribute.new_from_dict json_obj
      else Return VNone
  end.

Definition partattributes_get (fieldname : value) : io value :=
  let method := "partattributes/get" in
  let arg_types := partattributes_get_types in
  let arg_ranges := [] in
  let args := [("fieldname", fieldname)] in
  request method args arg_types arg_ranges partattributes_get_respond.

(** [partattributes_get_multi(self, fieldnames)] *)
Definition partattributes_get_multi_types : schema :=
  [("fieldnames", ListType)].

Definition partattributes_get_multi_respond (args : value) (r : result value)
  : result value :=
  match r with
  | Raise e =>
      http_error (not_found args partattributes_get_multi_types [])
        args partattributes_get_multi_types [] e
  | Return json_obj =>
      if truthy json_obj then
        items <- iterate json_obj ;;
        attributes <- mapM OctopartPartAttribute.new_from_dict items ;;
        Return (VList attributes)
      else Return (VList [])
  end.

Definition partattributes_get_multi (fieldnames : value) : io value :=
  let method := "partattributes/get_multi" in
  let arg_types := partattributes_get_multi_types in
  let arg_ranges := [] in
  let args := [("fieldnames", fieldnames)] in
  request method args arg_types arg_ranges partattributes_get_multi_respond.

(** [bom_match(self, lines, **kwargs)] *)
Definition bom_match_types : schema :=
  ("lines", ListType) :: ("optimize.return_stubs", BooleanType)
  :: optimize_types.

Definition lines_required_args : list string := ["reference"].

Definition lines_arg_types : schema :=
  [("q", StringType);
   ("mpn", StringType);
   ("manufacturer", StringType);
   ("sku", StringType);
   ("supplier", StringType);
   ("mpn_or_sku", StringType);
   ("start", IntType);
   ("limit", IntType);
   ("reference", StringType)].

Definition lines_arg_ranges : ranges := [("limit", range 21)].

(** The method-specific checks of a line (lines 654-657). *)
Definition line_checks (line : value) : result unit :=
  ks <- keys_of line ;;
  if negb (issubset lines_required_args ks)
  then Raise (OctopartException line lines_arg_types lines_arg_ranges 0)
  else
    start <- get_default line "start" (VInt 0) ;;
    m <- get_default line "match" (VInt 0) ;;
    total <- add start m ;;
    if gt_int total 100
    then Raise (OctopartException line lines_arg_types lines_arg_ranges 6)
    else Return tt.

(** The body of the [try] of the loop over [lines] (lines 652-657). *)
Definition check_line (line : value) : result unit :=
  _ <- call_validate_args line lines_arg_types lines_arg_ranges ;;
  line_checks line.

(** The loop over [lines] (lines 650-662): [None] when it runs to its
    end, else what the method returns or raises from inside it. *)
Fixpoint check_lines (lines : list value) : option (result value) :=
  match lines with
  | [] => None
  | line :: rest =>
      match check_line line with
      | Return _ => check_lines rest
      | Raise (OctopartException _ _ _ _) => Some (Return VNone)
      | Raise e => Some (Raise e)
      end
  end.

(** Lines 677-685; [locals] are the locals of the method that hold
    objects when [OctopartPart(part)] is evaluated. *)
Definition bom_match_respond (args : value) (r : result value)
  : result value :=
  match r with
  | Raise e =>
      http_error (not_found args bom_match_types [])
        args bom_match_types [] e
  | Return json_obj =>
      if truthy json_obj then
        rs <- subscript json_obj "results" ;;
        rs <- iterate rs ;;
        results <-
          mapM (fun result =>
                  its <- subscript result "items" ;;
                  its <- iterate its ;;
                  items <-
                    mapM (fun item =>
                            let locals := [("args", args);
                                           ("json_obj", json_obj);
                                           ("result", result);
                                           ("item", item)] in
                            part <- load_name locals "part" ;;
                            OctopartPart.init part) its ;;
                  reference <- get_default result "reference" (VStr "") ;;
                  status <- subscript result "status" ;;
                  Return (VDict [("items", VList items);
                                 ("reference", reference);
                                 ("status", status)])) rs ;;
        Return (VList results)
      else Return (VList [])
  end.

Definition bom_match (lines : value) (kwargs : dict) : io value :=
  let method := "bom/match" in
  let arg_types := bom_match_types in
  let arg_ranges := [] in
  translated kwargs (fun args =>
    let args := dict_set args "lines" lines in
    match iterate lines with
    | Raise e => ([], Raise e)
    | Return ls =>
        match check_lines ls with
        | Some r => ([], r)
        | None => request method args arg_types arg_ranges bom_match_respond
        end
    end).

(** *** Calls of the public methods *)

Inductive endpoint :=
| CategoriesGet | CategoriesGetMulti | CategoriesSearch
| PartsGet | PartsGetMulti | PartsSearch | PartsSuggest | PartsMatch
| PartattributesGet | PartattributesGetMulti
| BomMatch.

Definition endpoints : list endpoint :=
  [CategoriesGet; CategoriesGetMulti; CategoriesSearch;
   PartsGet; PartsGetMulti; PartsSearch; PartsSuggest; PartsMatch;
   PartattributesGet; PartattributesGetMulti; BomMatch].

(** The formals of each [def] after [self], and whether it ends with a
    [**kwargs] formal. *)
Definition formals (e : endpoint) : list string :=
  match e with
  | CategoriesGet => ["id"]
  | CategoriesGetMulti => ["ids"]
  | CategoriesSearch => []
  | PartsGet => ["uid"]
  | PartsGetMulti => ["uids"]
  | PartsSearch => []
  | PartsSuggest => ["q"]
  | PartsMatch => ["manufacturer_name"; "mpn"]
  | PartattributesGet => ["fieldname"]
  | PartattributesGetMulti => ["fieldnames"]
  | BomMatch => ["lines"]
  end.

Definition varkw (e : endpoint) : bool :=
  match e with
  | CategoriesSearch | PartsGet | PartsGetMulti | PartsSearch
  | PartsSuggest | BomMatch => true
  | _ => false
  end.

Definition method_body (e : endpoint) (bound kwargs : dict) : io value :=
  let arg name := match lookup name bound with Some v => v | None => VNone end in
  match e with
  | CategoriesGet => categories_get (arg "id")
  | CategoriesGetMulti => categories_get_multi (arg "ids")
  | CategoriesSearch => categories_search kwargs
  | PartsGet => parts_get (arg "uid") kwargs
  | PartsGetMulti => parts_get_multi (arg "uids") kwargs
  | PartsSearch => parts_search kwargs
  | PartsSuggest => parts_suggest (arg "q") kwargs
  | PartsMatch => parts_match (arg "manufacturer_name") (arg "mpn")
  | PartattributesGet => partattributes_get (arg "fieldname")
  | PartattributesGetMulti => partattributes_get_multi (arg "fieldnames")
  | BomMatch => bom_match (arg "lines") kwargs
  end.

(** A call of the public method on an instance, with positional actuals
    [pos] and keyword actuals [kw]; the instance takes the formal [self],
    which a keyword can therefore not name. *)
Definition call (e : endpoint) (pos : list value) (kw : dict) : io value :=
  if dict_mem "self" kw then ([], Raise TypeError)
  else
    match bind_args (formals e) (varkw e) pos kw with
    | Raise err => ([], Raise err)
    | Return (bound, kwargs) => method_body e bound kwargs
    end.

(** What each method does with the outcome of [__get]. *)
Definition respond (e : endpoint) : value -> result value -> result value :=
  match e with
  | CategoriesGet => categories_get_respond
  | CategoriesGetMulti => categories_get_multi_respond
  | CategoriesSearch => categories_search_respond
  | PartsGet => parts_get_respond
  | PartsGetMulti => parts_get_multi_respond
  | PartsSearch => parts_search_respond
  | PartsSuggest => parts_suggest_respond
  | PartsMatch => parts_match_respond
  | PartattributesGet => partattributes_get_respond
  | PartattributesGetMulti => partattributes_get_multi_respond
  | BomMatch => bom_match_respond
  end.
End Transport.
End Octopart.

(** ** [OctopartException.__str__] *)

Module OctopartException.
Section Str.
Variable rt : runtime.
(** The texts [str()] gives for a dictionary of type objects and for a
    dictionary of ranges. *)
Variable types_text : schema -> string.
Variable ranges_text : ranges -> string.

(** [__str__(self)], on the four attributes that [__init__] stores. *)
Definition __str__ (arguments : value) (arg_types : schema)
  (arg_ranges : ranges) (code : Z) : result string :=
  let args := (String "010" "Passed arguments: " ++ str rt arguments)%string in
  let argt := (String "010" "Argument types: " ++ types_text arg_types)%string in
  let argr := (String "010" "Argument ranges: " ++ ranges_text arg_ranges)%string in
  match find (fun entry => fst entry =? code) errors with
  | Some (_, message) => Return (message ++ args ++ argt ++ argr)%string
  | None => Raise KeyError
  end.
End Str.
End OctopartException.

(** ** Fixtures for closed statements *)

(** A runtime whose server answers every request with the HTTP error
    [status], and whose dictionaries keep the order of their keys when
    one is replaced. *)
Definition server (status : Z) : runtime :=
  {| urlopen_read := fun _ => Raise (HTTPError status);
     json_loads := fun _ => Raise ValueError;
     utf8_decode := fun _ => Raise UnicodeDecodeError;
     repr := fun _ => "<object>";
     rehashed := fun _ todo => todo |}.

(** A runtime whose server answers every request with the JSON object
    [body]. *)
Definition answering (body : value) : runtime :=
  {| urlopen_read := fun _ => Return "";
     json_loads := fun _ => Return body;
     utf8_decode := fun _ => Raise UnicodeDecodeError;
     repr := fun _ => "<object>";
     rehashed := fun _ todo => todo |}.

(** A runtime whose hash tables, once rebuilt, leave the iterator
    nothing. *)
Definition rebuilding : runtime :=
  {| urlopen_read := fun _ => Raise (HTTPError 0);
     json_loads := fun _ => Raise ValueError;
     utf8_decode := fun _ => Raise UnicodeDecodeError;
     repr := fun _ => "<object>";
     rehashed := fun _ _ => [] |}.

(** [Octopart()] *)
Definition anonymous : Octopart.client := Octopart.init None None None.

(** The range-constrained numeric arguments of the source: the schema and
    the ranges that declare each, its name and the maximum of its range. *)
Definition numeric_ranges : list (schema * ranges * string * Z) :=
  [ (Octopart.parts_search_types, Octopart.parts_search_ranges, "start", 1000);
    (Octopart.parts_search_types, Octopart.parts_search_ranges, "limit", 100);
    (Octopart.parts_search_types, Octopart.parts_search_ranges,
     "drilldown.facets.start", 1000);
    (Octopart.parts_search_types, Octopart.parts_search_ranges,
     "drilldown.facets.limit", 100);
    (Octopart.parts_suggest_types, Octopart.parts_suggest_ranges, "limit", 10);
    (Octopart.lines_arg_types, Octopart.lines_arg_ranges, "limit", 20) ].

(** ** Vocabulary of the statements on Part *)

(** [d.get(k, default)] on a dictionary. *)
Definition field (d : dict) (k : string) (default : value) : value :=
  match lookup k d with
  | Some v => v
  | None => default
  end.

(** The mapping supplies the three fields of a brand. *)
Definition has_brand_fields (m : dict) : bool :=
  dict_mem "id" m && dict_mem "displayname" m && dict_mem "homepage_url" m.

(** The Brand object with the fields of the mapping [m]. *)
Definition brand_of (m : dict) : value :=
  VObject ClsBrand
    [("id", field m "id" VNone);
     ("displayname", field m "displayname" VNone);
     ("homepage_url", field m "homepage_url" VNone)].

(** An offer without [update_ts] whose [supplier] is a complete brand
    mapping, or no mapping at all. *)
Definition plain_offer (offer : value) : bool :=
  match offer with
  | VDict o =>
      negb (dict_mem "update_ts" o)
      && match lookup "supplier" o with
         | Some (VDict m) => has_brand_fields m
         | Some _ => true
         | None => false
         end
  | _ => false
  end.

(** The offer with its [supplier] mapping replaced by the Brand object. *)
Definition with_supplier_brand (offer : value) : value :=
  match offer with
  | VDict o =>
      match lookup "supplier" o with
      | Some (VDict m) => VDict (dict_set o "supplier" (brand_of m))
      | _ => offer
      end
  | _ => offer
  end.

(** A spec whose [attribute] is no mapping. *)
Definition plain_spec (spec : value) : bool :=
  match spec with
  | VDict s =>
      match lookup "attribute" s with
      | Some (VDict _) => false
      | Some _ => true
      | None => false
      end
  | _ => false
  end.

(** ** Vocabulary of the statements on key translation *)

(** The key is an underscore alias of the table. *)
Definition is_alias (key : string) : bool := dict_mem key Octopart.translation.

Fixpoint distinct (l : list string) : bool :=
  match l with
  | [] => true
  | k :: l' => negb (mem k l') && distinct l'
  end.

(** [p] holds of every dictionary that the loop of [__translate_periods]
    passes to the recursive call for the value [x]: [x] itself, or the
    items of the list [x] that are dictionaries. *)
Definition on_nested (p : value -> bool) (x : value) : bool :=
  match x with
  | VDict _ => p x
  | VList l => forallb (fun a => match a with VDict _ => p a | _ => true end) l
  | _ => true
  end.

(** No key that the translation visits is an alias. *)
Fixpoint alias_free (v : value) : bool :=
  match v with
  | VDict d =>
      forallb (fun kv => negb (is_alias (fst kv)) && on_nested alias_free (snd kv)) d
  | _ => true
  end.

(** The translation of the value [x] of a key (lines 260-265): of the
    dictionary [x], or of the dictionaries in the list [x]. *)
Definition translate_value (rt : runtime) (x : value) : result value :=
  match x with
  | VDict _ => Octopart.translate_periods_obj rt x
  | VList l =>
      l' <- mapM (Octopart.translate_item (Octopart.translate_periods_obj rt)) l ;;
      Return (VList l')
  | _ => Return x
  end.

(** What the loop stores at a key whose value is [x], with [recur] for
    the recursive call (lines 260-265). *)
Definition nested_call (recur : value -> result value) (x : value)
  : result value :=
  match x with
  | VDict _ => recur x
  | VList l => l' <- mapM (Octopart.translate_item recur) l ;; Return (VList l')
  | _ => Return x
  end.

(** The aliases among the keys of a dictionary. *)
Definition aliases (args : dict) : nat :=
  List.length (filter is_alias (keys args)).

(** A dictionary for which the outcome of the translation does not depend
    on the hash table: its keys are distinct, and either none is an alias
    and the dictionaries in its values are such dictionaries in turn, or
    one alone is an alias and the dictionaries in its values have no
    alias at all. *)
Fixpoint tame (v : value) : bool :=
  match v with
  | VDict d =>
      distinct (keys d)
      && (forallb (fun kv => negb (is_alias (fst kv)) && on_nested tame (snd kv)) d
          || ((aliases d =? 1)%nat
              && forallb (fun kv => on_nested alias_free (snd kv)) d))
  | _ => true
  end.

(** ** Vocabulary of the statements on the query string *)














(** ** Induction on values *)

Section ValueInd.
Variable P : value -> Prop.
Hypothesis HNone : P VNone.
Hypothesis HBool : forall b, P (VBool b).
Hypothesis HInt : forall n, P (VInt n).
Hypothesis HStr : forall s, P (VStr s).
Hypothesis HList : forall l, Forall P l -> P (VList l).
Hypothesis HTuple : forall l, Forall P l -> P (VTuple l).
Hypothesis HDict : forall d, Forall (fun kv => P (snd kv)) d -> P (VDict d).
Hypothesis HObject :
  forall c d, Forall (fun kv => P (snd kv)) d -> P (VObject c d).

End ValueInd.

(** ** Vocabulary of the proofs *)

(** An outcome other than an [OctopartException]. *)
Definition plain_error (e : exn) : Prop :=
  match e with OctopartException _ _ _ _ => False | _ => True end.

Definition plain {A} (r : result A) : Prop :=
  match r with Raise e => plain_error e | Return _ => True end.


(** The endpoints whose handler turns an HTTP 404 into [None]. *)
Definition absent_on_404 (e : Octopart.endpoint) : bool :=
  match e with
  | Octopart.CategoriesGet | Octopart.PartsGet | Octopart.PartattributesGet => true
  | _ => false
  end.

(** ** Vocabulary of the statements on validation *)

(** The value has the type that the schema declares for it, as the
    validator tests it: any string for [StringType], else the very
    type. *)
Definition well_typed (t : pytype) (v : value) : Prop :=
  match t with
  | StringType => exists s, v = VStr s
  | _ => type_of v = t
  end.

(** The value lies in the range declared for it: a string by its length,
    between the first two members of the range; any other value by
    membership. *)
Definition in_range (t : pytype) (rng : list num) (v : value) : Prop :=
  match t with
  | StringType =>
      exists s lo hi rest,
        v = VStr s /\ rng = lo :: hi :: rest
        /\ lt_num (Z.of_nat (String.length s)) lo = false
        /\ gt_num (Z.of_nat (String.length s)) hi = false
  | _ => exists n, In n rng /\ eq_num v n = true
  end.

(** ** Vocabulary of the statements on the domain objects *)

(** The mapping has every key of [ks]. *)
Definition supplies (d : dict) (ks : list string) : bool :=
  forallb (fun k => dict_mem k d) ks.

(** The keys that [OctopartBrand.new_from_dict] reads with [[]], and
    those that [OctopartCategory.new_from_dict] does. *)
Definition brand_fields : list string := ["id"; "displayname"; "homepage_url"].

Definition category_required : list string :=
  ["id"; "parent_id"; "nodename"; "images"; "children_ids"; "ancestor_ids";
   "num_parts"].

(** A mapping that supplies the required fields of a category, and the
    Category object with the fields of the mapping. *)
Definition is_category (v : value) : bool :=
  match v with
  | VDict d => supplies d category_required
  | _ => false
  end.

Definition category_of (v : value) : value :=
  match v with
  | VDict d =>
      VObject ClsCategory
        [("id", field d "id" VNone); ("parent_id", field d "parent_id" VNone);
         ("nodename", field d "nodename" VNone);
         ("images", field d "images" VNone);
         ("children_ids", field d "children_ids" VNone);
         ("ancestor_ids", field d "ancestor_ids" VNone);
         ("ancestors", field d "ancestors" (VList []));
         ("num_parts", field d "num_parts" VNone)]
  | _ => VNone
  end.

(** The optional fields of a part that the constructor copies, each with
    the default it takes when the mapping lacks it (lines 114-124). *)
Definition part_defaults : list (string * value) :=
  [("avg_price", VNone); ("avg_avail", VNone); ("market_status", VNone);
   ("num_suppliers", VNone); ("num_authsuppliers", VNone);
   ("short_description", VStr ""); ("category_ids", VList []);
   ("images", VList []); ("datasheets", VList []); ("descriptions", VList []);
   ("hyperlinks", VDict [])].

(** ** Vocabulary of the statements on the transport and the responses *)

(** The client option that [__get] stores under the argument name [k]. *)
Definition client_option (self : Octopart.client) (k : string) : option value :=
  if String.eqb k "apikey" then Some (Octopart.apikey self)
  else if String.eqb k "callback" then Some (Octopart.callback self)
  else if String.eqb k "pretty_print" then Some (Octopart.pretty_print self)
  else None.

(** What each method returns for a response that is false as a condition
    ([null], an empty object or list, zero, an empty string). *)
Definition empty_result (e : Octopart.endpoint) : value :=
  match e with
  | Octopart.CategoriesGet | Octopart.PartsGet | Octopart.PartsMatch
  | Octopart.PartattributesGet => VNone
  | Octopart.PartsSearch => VTuple [VList []; VList []]
  | _ => VList []
  end.

(** * Properties *)

Import Octopart.

(** ** The validation call of the endpoints *)

(** [__validate_args] is defined without a [self] formal and called as a
    method, so the call passes four positionals to three formals. *)
Lemma call_validate_args_raises args arg_types arg_ranges :
  call_validate_args args arg_types arg_ranges = Raise TypeError.
Proof. reflexivity. Qed.

Lemma request_raises rt self method args arg_types arg_ranges respond :
  request rt self method args arg_types arg_ranges respond
  = ([], Raise TypeError).
Proof. reflexivity. Qed.

Lemma check_lines_raises lines :
  check_lines lines = match lines with
                      | [] => None
                      | _ :: _ => Some (Raise TypeError)
                      end.
Proof. destruct lines; reflexivity. Qed.

Lemma translated_outcome rt kwargs k :
  (forall args, exists err, k args = ([], Raise err)) ->
  exists err, translated rt kwargs k = ([], Raise err).
Proof.
  intros Hk. unfold translated.
  destruct (call_translate_periods rt kwargs) as [args|err]; eauto.
Qed.

(** No call of a public method issues a request or returns. *)
Lemma call_outcome rt self e pos kw :
  exists err, call rt self e pos kw = ([], Raise err).
Proof.
  unfold call. destruct (dict_mem "self" kw); [eauto|].
  destruct (bind_args (formals e) (varkw e) pos kw) as [[bound kwargs]|err];
    [|eauto].
  destruct e; cbn [method_body];
    try (exists TypeError; reflexivity);
    try (apply translated_outcome; intros; exists TypeError; apply request_raises).
  apply translated_outcome. intros args. cbv zeta.
  destruct (iterate _) as [ls|err]; [|eauto].
  rewrite check_lines_raises. destruct ls; eauto using request_raises.
Qed.

(** ** The validator *)

Lemma lookup_mem {A} k (d : list (string * A)) v :
  lookup k d = Some v -> mem k (map fst d) = true.
Proof.
  induction d as [|[k' v'] d IH]; cbn; [discriminate|].
  destruct (String.eqb k k'); cbn; auto.
Qed.

Lemma existsb_eq_num_seq n a m :
  existsb (eq_num (VInt n)) (map (fun i => NInt (Z.of_nat i)) (seq a m))
  = (Z.of_nat a <=? n) && (n <? Z.of_nat (a + m)).
Proof.
  revert a. induction m as [|m IH]; intros a; cbn [seq map existsb].
  - rewrite Nat.add_0_r. lia.
  - rewrite IH. cbn [eq_num]. lia.
Qed.

Lemma existsb_eq_num_range n m :
  existsb (eq_num (VInt n)) (range m) = (0 <=? n) && (n <? Z.of_nat m).
Proof. unfold range. now rewrite existsb_eq_num_seq. Qed.

(** A call whose only argument is the integer [n] for a range-constrained
    numeric argument [k]: a long is malformed, and an int is accepted
    exactly when it is in the range. *)
Lemma validate_args_int_range arg_types arg_ranges k m n :
  lookup k arg_types = Some IntType ->
  lookup k arg_ranges = Some (range m) ->
  validate_args (VDict [(k, VInt n)]) arg_types arg_ranges
  = if machine_int n
    then if (0 <=? n) && (n <? Z.of_nat m) then Return tt
         else Raise (OctopartException (VDict [(k, VInt n)]) arg_types arg_ranges 4)
    else Raise (OctopartException (VDict [(k, VInt n)]) arg_types arg_ranges 2).
Proof.
  intros Ht Hr. unfold validate_args. cbn.
  rewrite (lookup_mem _ _ _ Ht). cbn.
  unfold validate_arg. rewrite Ht. cbn. rewrite String.eqb_refl. cbn.
  destruct (machine_int n); cbn; [|reflexivity].
  rewrite Hr, existsb_eq_num_range.
  destruct ((0 <=? n) && (n <? Z.of_nat m)); reflexivity.
Qed.

(** A call whose only argument is the string [s] for a length-constrained
    argument [k]. *)
Lemma validate_args_str_length arg_types arg_ranges k lo hi s :
  lookup k arg_types = Some StringType ->
  lookup k arg_ranges = Some [lo; hi] ->
  validate_args (VDict [(k, VStr s)]) arg_types arg_ranges
  = if lt_num (Z.of_nat (String.length s)) lo
       || gt_num (Z.of_nat (String.length s)) hi
    then Raise (OctopartException (VDict [(k, VStr s)]) arg_types arg_ranges 5)
    else Return tt.
Proof.
  intros Ht Hr. unfold validate_args. cbn.
  rewrite (lookup_mem _ _ _ Ht). cbn.
  unfold validate_arg. rewrite Ht. cbn. rewrite String.eqb_refl. cbn.
  rewrite Hr. cbn.
  destruct (lt_num _ lo); cbn; [reflexivity|].
  destruct (gt_num _ hi); reflexivity.
Qed.

(** X3: the validator, on the arguments of [parts_suggest(q)] and the
    schema of parts/suggest, raises the length-out-of-range kind (code 5)
    when [q] has fewer than two characters and accepts any longer [q]. *)
Lemma validate_args_suggest_query s :
  validate_args (VDict [("q", VStr s)]) parts_suggest_types parts_suggest_ranges
  = if (String.length s <? 2)%nat
    then Raise (OctopartException (VDict [("q", VStr s)])
                  parts_suggest_types parts_suggest_ranges 5)
    else Return tt.
Proof.
  rewrite (validate_args_str_length _ _ "q" (NInt 2) NInf) by reflexivity.
  cbn [lt_num gt_num]. rewrite orb_false_r.
  destruct (Nat.ltb_spec (String.length s) 2);
    destruct (Z.ltb_spec (Z.of_nat (String.length s)) 2); try reflexivity; lia.
Qed.

(** X2: for every range-constrained numeric argument of the source, the
    validator accepts the integer [n] exactly when it lies between 0 and
    the maximum of the range; otherwise it raises the numeric-out-of-range
    kind (code 4) when [n] is an int, and the malformed-argument kind
    (code 2) when [n] is too large for an int, and so a long. *)
Lemma validate_args_range_maximum :
  Forall (fun '(arg_types, arg_ranges, k, max) =>
            forall n,
              validate_args (VDict [(k, VInt n)]) arg_types arg_ranges
              = if (0 <=? n) && (n <=? max) then Return tt
                else Raise (OctopartException (VDict [(k, VInt n)])
                              arg_types arg_ranges
                              (if machine_int n then 4 else 2)))
         numeric_ranges.
Proof.
  assert (H : forall arg_types arg_ranges k m max n,
             lookup k arg_types = Some IntType ->
             lookup k arg_ranges = Some (range m) ->
             Z.of_nat m = max + 1 -> max <= maxint ->
             validate_args (VDict [(k, VInt n)]) arg_types arg_ranges
             = if (0 <=? n) && (n <=? max) then Return tt
               else Raise (OctopartException (VDict [(k, VInt n)])
                             arg_types arg_ranges
                             (if machine_int n then 4 else 2))).
  { intros arg_types arg_ranges k m max n Ht Hr Hm Hmax.
    rewrite (validate_args_int_range _ _ _ m) by assumption.
    replace (n <? Z.of_nat m) with (n <=? max) by lia.
    destruct (machine_int n) eqn:Hn; [reflexivity|].
    replace ((0 <=? n) && (n <=? max)) with false; [reflexivity|].
    unfold machine_int in Hn. unfold maxint in *. lia. }
  unfold numeric_ranges.
  repeat constructor; intros n.
  - apply (H _ _ _ 1001%nat); try reflexivity; unfold maxint; lia.
  - apply (H _ _ _ 101%nat); try reflexivity; unfold maxint; lia.
  - apply (H _ _ _ 1001%nat); try reflexivity; unfold maxint; lia.
  - apply (H _ _ _ 101%nat); try reflexivity; unfold maxint; lia.
  - apply (H _ _ _ 11%nat); try reflexivity; unfold maxint; lia.
  - apply (H _ _ _ 21%nat); try reflexivity; unfold maxint; lia.
Qed.

(** ** Key translation raises no [OctopartException] *)

Lemma plain_error_code {A} (r : result A) : plain r -> error_code r = None.
Proof. destruct r as [a|[]]; cbn; tauto. Qed.

Lemma plain_bind {A B} (m : result A) (k : A -> result B) :
  plain m -> (forall a, plain (k a)) -> plain (m <- m ;; k m).
Proof. destruct m; cbn; auto. Qed.

Lemma plain_mapM {A B} (f : A -> result B) l :
  Forall (fun a => plain (f a)) l -> plain (mapM f l).
Proof.
  induction 1 as [|a l Ha _ IH]; cbn; [exact I|].
  apply plain_bind; [exact Ha|intros b].
  apply plain_bind; [exact IH|intros r; exact I].
Qed.

Lemma plain_rename_key args key : plain (rename_key args key).
Proof.
  unfold rename_key. destruct (lookup key translation); [|exact I].
  unfold dict_pop. destruct (lookup key args); cbn; [|exact I].
  destruct (dict_mem _ _); exact I.
Qed.

Lemma translate_loop_nil rt recur renamings args :
  translate_loop rt recur renamings [] args = Return args.
Proof. destruct renamings; reflexivity. Qed.

Lemma translate_loop_cons rt recur renamings key todo args :
  translate_loop rt recur renamings (key :: todo) args
  = (x <- subscript (VDict args) key ;;
     args <- translate_nested recur args key x ;;
     args <- rename_key args key ;;
     if dict_mem key translation then
       match renamings with
       | S renamings' =>
           translate_loop rt recur renamings' (remaining rt args todo) args
       | O => Return args
       end
     else translate_loop rt recur renamings todo args).
Proof. destruct renamings; reflexivity. Qed.

Lemma plain_translate_nested recur args key x :
  (forall v, plain (recur v)) -> plain (translate_nested recur args key x).
Proof.
  intros Hr. unfold translate_nested. destruct x; try exact I.
  - apply plain_bind; [|intros; exact I].
    apply plain_mapM, Forall_forall. intros a _. destruct a; cbn; auto.
  - apply plain_bind; [apply Hr|intros; exact I].
Qed.

Lemma plain_translate_loop rt recur :
  (forall v, plain (recur v)) ->
  forall renamings todo args,
    plain (translate_loop rt recur renamings todo args).
Proof.
  intros Hr. induction renamings as [|n IHn]; intros todo;
    induction todo as [|key todo IH]; intros args;
    rewrite ?translate_loop_nil, ?translate_loop_cons; try exact I.
  - apply plain_bind.
    { cbn. destruct (lookup key args); exact I. }
    intros x. apply plain_bind; [now apply plain_translate_nested|intros args1].
    apply plain_bind; [apply plain_rename_key|intros args2].
    destruct (dict_mem key translation); [exact I|apply IH].
  - apply plain_bind.
    { cbn. destruct (lookup key args); exact I. }
    intros x. apply plain_bind; [now apply plain_translate_nested|intros args1].
    apply plain_bind; [apply plain_rename_key|intros args2].
    destruct (dict_mem key translation); [apply IHn|apply IH].
Qed.

Lemma plain_translate_periods_at rt depth v :
  plain (translate_periods_at rt depth v).
Proof.
  revert v. induction depth as [|n IH]; intros v; [exact I|].
  destruct v; try exact I. cbn [translate_periods_at].
  apply plain_bind; [|intros; exact I].
  now apply plain_translate_loop.
Qed.

Lemma plain_translate_periods rt kwargs : plain (translate_periods rt kwargs).
Proof.
  unfold translate_periods, translate_periods_obj.
  apply plain_bind; [apply plain_translate_periods_at|].
  intros []; exact I.
Qed.

(** No call of a public method raises an [OctopartException]. *)
Lemma call_plain rt self e pos kw : plain (snd (call rt self e pos kw)).
Proof.
  assert (Hb : forall f v p k, plain (bind_args f v p k)).
  { intros f v p k. unfold bind_args. destruct (_ <? _)%nat; [exact I|].
    generalize (combine f p) ([] : dict). generalize (skipn (List.length p) f).
    induction k as [|[k0 v0] k IH]; intros u b x; cbn.
    - destruct (forallb _ _); exact I.
    - destruct (dict_mem k0 b); [exact I|].
      destruct (existsb _ u); [apply IH|]. destruct v; [apply IH|exact I]. }
  assert (Ht : forall kwargs k,
             (forall args, k args = ([], Raise TypeError)) ->
             plain (snd (translated rt kwargs k))).
  { intros kwargs k Hk. unfold translated, call_translate_periods, bound_call.
    cbn. pose proof (plain_translate_periods rt kwargs) as Hp.
    destruct (translate_periods rt kwargs); [now rewrite Hk|exact Hp]. }
  unfold call. destruct (dict_mem "self" kw); [exact I|].
  specialize (Hb (formals e) (varkw e) pos kw).
  destruct (bind_args _ _ _ _) as [[bound kwargs]|err]; [|exact Hb].
  destruct e; cbn [method_body]; try exact I;
    try (apply Ht; intros; apply request_raises).
  unfold bom_match, translated, call_translate_periods, bound_call. cbn.
  pose proof (plain_translate_periods rt kwargs) as Hp.
  destruct (translate_periods rt kwargs) as [args|err]; [|exact Hp].
  destruct (iterate _) as [ls|err] eqn:Hi.
  - rewrite check_lines_raises. destruct ls; exact I.
  - destruct (match lookup "lines" bound with Some v => v | None => VNone end);
      cbn in Hi; try discriminate; injection Hi as <-; exact I.
Qed.

(** ** The line checks of bom/match *)

Lemma mapM_Return {A B} (f : A -> result B) l r :
  mapM f l = Return r -> Forall (fun a => exists b, f a = Return b) l.
Proof.
  revert r. induction l as [|a l IH]; intros r; cbn; [constructor|].
  destruct (f a) as [b|e] eqn:Ha; cbn; [|discriminate].
  destruct (mapM f l) as [r'|e] eqn:Hl; cbn; [|discriminate].
  intros _. constructor; eauto.
Qed.

Lemma mem_In k l : mem k l = true <-> In k l.
Proof.
  unfold mem. rewrite existsb_exists. split.
  - intros (x & Hx & Hk). apply String.eqb_eq in Hk. now subst.
  - intros Hk. exists k. split; [assumption|apply String.eqb_refl].
Qed.

Lemma lookup_None_keys k (d : dict) : ~ In k (keys d) -> lookup k d = None.
Proof.
  induction d as [|[k' v] d IH]; cbn; [reflexivity|].
  intros Hk. destruct (String.eqb_spec k k') as [->|_]; [tauto|].
  apply IH. tauto.
Qed.

Lemma lookup_Some_keys k (d : dict) v : lookup k d = Some v -> In k (keys d).
Proof.
  induction d as [|[k' v'] d IH]; cbn; [discriminate|].
  destruct (String.eqb_spec k k') as [->|_]; auto.
Qed.

(** What a line the validator accepts can hold: no key outside the line
    schema, and an int at [start]. *)
Lemma validate_args_line d :
  validate_args (VDict d) lines_arg_types lines_arg_ranges = Return tt ->
  lookup "match" d = None
  /\ (forall v, lookup "start" d = Some v -> exists n, v = VInt n).
Proof.
  unfold validate_args. cbn [keys_of bind].
  destruct (issubset _ _) eqn:Hsub; cbn [negb]; [|discriminate].
  destruct (mapM _ _) as [r|e] eqn:Hm; cbn [bind]; [|discriminate].
  intros _. unfold issubset in Hsub. rewrite forallb_forall in Hsub.
  apply mapM_Return in Hm. rewrite Forall_forall in Hm. split.
  - apply lookup_None_keys. intros Hk.
    apply (nodup_In string_dec) in Hk. apply Hsub in Hk. discriminate.
  - intros v Hv.
    destruct (Hm "start") as [[] Hs].
    { apply nodup_In. eapply lookup_Some_keys; eassumption. }
    unfold validate_arg in Hs. cbn in Hs. rewrite Hv in Hs. cbn in Hs.
    destruct v; cbn in Hs; try discriminate. eauto.
Qed.

(** X5: on a line that the validator accepts and that has a reference,
    the check of line 656 depends on [start] alone: it raises code 6
    exactly when [start] exceeds 100, whatever the [limit] of the line. *)
Lemma line_checks_validated d :
  validate_args (VDict d) lines_arg_types lines_arg_ranges = Return tt ->
  In "reference" (keys d) ->
  line_checks (VDict d)
  = match lookup "start" d with
    | Some (VInt n) =>
        if 100 <? n
        then Raise (OctopartException (VDict d) lines_arg_types lines_arg_ranges 6)
        else Return tt
    | _ => Return tt
    end.
Proof.
  intros Hv Href. destruct (validate_args_line d Hv) as [Hm Hs].
  unfold line_checks. cbn [keys_of bind].
  assert (Hsub : issubset lines_required_args (keys d) = true).
  { cbn. rewrite andb_true_r. now apply mem_In. }
  rewrite Hsub. cbn [negb get_default]. rewrite Hm.
  destruct (lookup "start" d) as [v|] eqn:Hstart; cbn.
  - destruct (Hs v eq_refl) as [n ->]. cbn. rewrite Z.add_0_r.
    destruct (100 <? n); reflexivity.
  - reflexivity.
Qed.

(** ** Claims on the endpoints *)

(** C1 (bom/match rejects a line whose start plus limit exceeds 100 with
    the bom-line-limit-exceeded kind and issues no request): the text of
    error 6 speaks of start+limit, but at the line
    [{reference: R1, start: 90, limit: 15}] the validator accepts the
    line, the method-specific checks raise nothing (line 656 adds the
    absent key [match], not [limit]), and the call as a whole ends in a
    type error at its first validation call, without a request. *)
Theorem bom_match_line_limit_unchecked :
  let line := VDict [("reference", VStr "R1"); ("start", VInt 90);
                     ("limit", VInt 15)] in
  In (6, "Value of (start+limit) in a bom/match line argument exceeds 100.")
     errors
  /\ validate_args line lines_arg_types lines_arg_ranges = Return tt
  /\ line_checks line = Return tt
  /\ forall rt self, bom_match rt self (VList [line]) [] = ([], Raise TypeError).
Proof. repeat split. cbn. tauto. Qed.

(** C2 (an HTTP 404 makes parts/get return an absent result and
    parts/get_multi fail with the not-found kind): against a server that
    answers 404, both calls end in a type error at the validation call
    and issue no request; the handlers they would reach do map a 404 to
    [None] and to code 7. *)
Theorem parts_get_not_found_unreached :
  parts_get (server 404) anonymous (VInt 1) [] = ([], Raise TypeError)
  /\ parts_get_multi (server 404) anonymous (VStr "1,2") []
     = ([], Raise TypeError)
  /\ (forall args,
        parts_get_respond args (Raise (HTTPError 404)) = Return VNone)
  /\ (forall args,
        parts_get_multi_respond args (Raise (HTTPError 404))
        = Raise (OctopartException args parts_get_multi_types [] 7)).
Proof. repeat split. Qed.

(** C7 (the maximum of every numeric range is accepted and the value one
    above is rejected with the numeric-out-of-range kind): the validator
    does so for each range of the source, but the calls
    [parts_search(limit=100)] and [parts_search(limit=101)] both end in a
    type error at the validation call. *)
Theorem numeric_range_maximum_unreached :
  Forall (fun '(arg_types, arg_ranges, k, max) =>
            validate_args (VDict [(k, VInt max)]) arg_types arg_ranges
            = Return tt
            /\ error_code (validate_args (VDict [(k, VInt (max + 1))])
                             arg_types arg_ranges) = Some 4)
         numeric_ranges
  /\ (forall rt self,
        parts_search rt self [("limit", VInt 100)] = ([], Raise TypeError))
  /\ (forall rt self,
        parts_search rt self [("limit", VInt 101)] = ([], Raise TypeError)).
Proof.
  split; [|split; reflexivity].
  unfold numeric_ranges.
  repeat (constructor; [split; vm_compute; reflexivity|]). constructor.
Qed.

(** C8 (a parts/suggest call with a query of length 1 fails validation
    with the length-out-of-range kind, and one of length 2 passes): the
    validator does so on the arguments of the call, but every
    [parts_suggest] call ends in a type error at the validation call. *)
Theorem parts_suggest_query_length_unreached :
  error_code (validate_args (VDict [("q", VStr "a")])
                parts_suggest_types parts_suggest_ranges) = Some 5
  /\ validate_args (VDict [("q", VStr "ab")])
       parts_suggest_types parts_suggest_ranges = Return tt
  /\ (forall rt self,
        parts_suggest rt self (VStr "a") [] = ([], Raise TypeError))
  /\ (forall rt self,
        parts_suggest rt self (VStr "ab") [] = ([], Raise TypeError)).
Proof. repeat split. Qed.

(** C9 (an HTTP 503 surfaces from every endpoint as the
    service-unavailable kind): the handler of each endpoint maps a 503 to
    code 8, but against a server that answers 503 no call of any endpoint
    issues a request or raises an [OctopartException]; [categories_get(1)]
    ends in a type error at the validation call. *)
Theorem service_unavailable_unreached :
  (forall e args, error_code (respond e args (Raise (HTTPError 503))) = Some 8)
  /\ (forall self e pos kw,
        fst (call (server 503) self e pos kw) = []
        /\ error_code (snd (call (server 503) self e pos kw)) = None)
  /\ call (server 503) anonymous CategoriesGet [VInt 1] []
     = ([], Raise TypeError).
Proof.
  split; [|split; [|reflexivity]].
  - intros []; reflexivity.
  - intros self e pos kw. split.
    + destruct (call_outcome (server 503) self e pos kw) as [err ->].
      reflexivity.
    + apply plain_error_code, call_plain.
Qed.

(** ** Required arguments *)






(** ** PartAttribute *)

Lemma part_attribute_new_from_dict_raises v :
  exists e, OctopartPartAttribute.new_from_dict v = Raise e.
Proof.
  unfold OctopartPartAttribute.new_from_dict.
  destruct (subscript v "fieldname"); cbn; [|eauto].
  destruct (subscript v "displayname"); cbn; [|eauto].
  destruct (subscript v "type"); cbn; [|eauto].
  destruct (get_default v "metadata" _); cbn; eauto.
Qed.

(** ** Claims on required arguments and on PartAttribute *)




(** C6, as stated, fails: [new_from_dict] on the empty mapping raises a
    key error, not an unbound-name error. *)
Lemma part_attribute_empty_mapping_key_error :
  OctopartPartAttribute.new_from_dict (VDict []) = Raise KeyError.
Proof. reflexivity. Qed.

(** C6, amended: the constructor of PartAttribute raises an unbound-name
    error for every input, and so does [new_from_dict] for every mapping
    that supplies [fieldname], [displayname] and [type]; [new_from_dict]
    returns for no input, so what partattributes/get and
    partattributes/get_multi do with a non-empty response raises, and no
    call of either returns. *)
Theorem part_attribute_never_constructed :
  (forall fieldname displayname type metadata,
      OctopartPartAttribute.init fieldname displayname type metadata
      = Raise NameError)
  /\ (forall d,
        dict_mem "fieldname" d = true ->
        dict_mem "displayname" d = true ->
        dict_mem "type" d = true ->
        OctopartPartAttribute.new_from_dict (VDict d) = Raise NameError)
  /\ (forall v, exists e, OctopartPartAttribute.new_from_dict v = Raise e)
  /\ (forall args json_obj,
        truthy json_obj = true ->
        (exists e, partattributes_get_respond args (Return json_obj) = Raise e)
        /\ (exists e, partattributes_get_multi_respond args (Return json_obj)
                      = Raise e))
  /\ (forall rt self v,
        (exists e, partattributes_get rt self v = ([], Raise e))
        /\ (exists e, partattributes_get_multi rt self v = ([], Raise e))).
Proof.
  split; [reflexivity|]. split; [|split; [exact part_attribute_new_from_dict_raises|split]].
  - intros d H1 H2 H3. unfold OctopartPartAttribute.new_from_dict, dict_mem in *.
    cbn. destruct (lookup "fieldname" d); [|discriminate].
    destruct (lookup "displayname" d); [|discriminate].
    destruct (lookup "type" d); [|discriminate].
    cbn. destruct (lookup "metadata" d); reflexivity.
  - intros args json_obj Ht. split.
    + cbn. rewrite Ht. apply part_attribute_new_from_dict_raises.
    + cbn. rewrite Ht.
      destruct json_obj as [| | |s|l|l|d|c d]; cbn in *; try discriminate; eauto.
      * destruct s as [|c s]; [discriminate|]. cbn. eauto.
      * destruct l as [|x l]; [discriminate|].
        destruct (part_attribute_new_from_dict_raises x) as [e He].
        cbn. rewrite He. cbn. eauto.
      * destruct l as [|x l]; [discriminate|].
        destruct (part_attribute_new_from_dict_raises x) as [e He].
        cbn. rewrite He. cbn. eauto.
      * destruct d as [|[k x] d]; [discriminate|]. cbn. eauto.
  - intros rt self v. split; exists TypeError; reflexivity.
Qed.

Lemma part_attribute_never_constructed_witness :
  OctopartPartAttribute.new_from_dict
    (VDict [("fieldname", VStr "capacitance");
            ("displayname", VStr "Capacitance");
            ("type", VStr "number")])
  = Raise NameError
  /\ exists e,
      partattributes_get_respond VNone
        (Return (VDict [("fieldname", VStr "capacitance")])) = Raise e.
Proof.
  destruct part_attribute_never_constructed as (_ & Hnew & _ & Hresp & _).
  split.
  - apply Hnew; reflexivity.
  - apply (Hresp _ (VDict [("fieldname", VStr "capacitance")])).
    reflexivity.
Defined.

(** ** Part *)

Lemma lookup_dict_set_eq d k v : lookup k (dict_set d k v) = Some v.
Proof.
  induction d as [|[k' v'] d IH]; cbn.
  - now rewrite String.eqb_refl.
  - destruct (String.eqb_spec k k') as [->|Hk]; cbn.
    + now rewrite String.eqb_refl.
    + destruct (String.eqb_spec k k'); [contradiction|exact IH].
Qed.

Lemma lookup_dict_set_neq d k k' v :
  k <> k' -> lookup k (dict_set d k' v) = lookup k d.
Proof.
  intros Hk. induction d as [|[k0 v0] d IH]; cbn.
  - destruct (String.eqb_spec k k'); [contradiction|reflexivity].
  - destruct (String.eqb_spec k' k0) as [->|Hk0]; cbn.
    + destruct (String.eqb_spec k k0); [contradiction|reflexivity].
    + destruct (String.eqb k k0); [reflexivity|exact IH].
Qed.

Lemma brand_new_from_dict m :
  has_brand_fields m = true ->
  OctopartBrand.new_from_dict (VDict m) = Return (brand_of m).
Proof.
  unfold has_brand_fields, dict_mem, OctopartBrand.new_from_dict, brand_of, field.
  cbn. destruct (lookup "id" m); [|discriminate].
  destruct (lookup "displayname" m); [|discriminate].
  destruct (lookup "homepage_url" m); [reflexivity|discriminate].
Qed.

Lemma convert_offer_plain offer :
  plain_offer offer = true ->
  OctopartPart.convert_offer offer = Return (with_supplier_brand offer).
Proof.
  destruct offer as [| | | | | |o|]; try discriminate. cbn.
  destruct (dict_mem "update_ts" o) eqn:Hts; [discriminate|]. cbn.
  unfold OctopartPart.convert_offer. cbn.
  destruct (lookup "supplier" o) as [sup|] eqn:Hsup; [|discriminate]. cbn.
  destruct sup as [| |n| | | |m|]; cbn; intros Hm;
    try (destruct (machine_int n); cbn); try (rewrite Hts; reflexivity).
  rewrite (brand_new_from_dict m Hm). cbn.
  unfold dict_mem in *. rewrite lookup_dict_set_neq by discriminate.
  destruct (lookup "update_ts" o); [discriminate|reflexivity].
Qed.

Lemma convert_spec_plain spec :
  plain_spec spec = true -> OctopartPart.convert_spec spec = Return spec.
Proof.
  destruct spec as [| | | | | |s|]; try discriminate. cbn.
  unfold OctopartPart.convert_spec. cbn.
  destruct (lookup "attribute" s) as [a|]; [|discriminate].
  destruct a as [| |n| | | | |]; cbn; try (destruct (machine_int n); cbn);
    try reflexivity. discriminate.
Qed.

Lemma mapM_ext_Return {A B} (f : A -> result B) (g : A -> B) l :
  Forall (fun a => f a = Return (g a)) l -> mapM f l = Return (map g l).
Proof.
  induction 1 as [|a l Ha _ IH]; cbn; [reflexivity|].
  now rewrite Ha, IH.
Qed.

Lemma forallb_Forall {A} (p : A -> bool) l :
  forallb p l = true -> Forall (fun a => p a = true) l.
Proof. intros H. apply Forall_forall. now apply forallb_forall. Qed.

(** The loop over [offers] or [specs], when the entry is absent or a list
    whose items the body converts. *)
Lemma convert_items_list d key body (g : value -> value) items :
  field d key (VList []) = VList items ->
  Forall (fun x => body x = Return (g x)) items ->
  exists d',
    OctopartPart.convert_items (VDict d) key body = Return (VDict d')
    /\ field d' key (VList []) = VList (map g items)
    /\ forall k, k <> key -> lookup k d' = lookup k d.
Proof.
  intros Hf Hb. unfold OctopartPart.convert_items, field in *. cbn.
  destruct (lookup key d) as [v|] eqn:Hk.
  - subst v. cbn. rewrite (mapM_ext_Return body g items Hb). cbn.
    unfold dict_mem. rewrite Hk. cbn. eexists. split; [reflexivity|]. split.
    + now rewrite lookup_dict_set_eq.
    + intros k Hne. now apply lookup_dict_set_neq.
  - injection Hf as <-. cbn. unfold dict_mem. rewrite Hk. cbn.
    exists d. rewrite Hk. auto.
Qed.

Lemma subscript_dict d k v : lookup k d = Some v -> subscript (VDict d) k = Return v.
Proof. intros H. cbn. now rewrite H. Qed.

Lemma get_default_dict d k default :
  get_default (VDict d) k default = Return (field d k default).
Proof. unfold field. cbn. now destruct (lookup k d). Qed.

Lemma field_same d d' k default :
  lookup k d' = lookup k d -> field d' k default = field d k default.
Proof. unfold field. now intros ->. Qed.

(** C5, as stated, fails: a mapping in the shape the service returns, with
    an offer whose supplier is a sub-mapping, yields a Part whose [offers]
    is not the supplied value (the supplier is now a Brand object). *)
Lemma part_offers_converted :
  let brand := VDict [("id", VInt 370); ("displayname", VStr "Texas Instruments");
                      ("homepage_url", VStr "http://www.ti.com")] in
  let offers := VList [VDict [("supplier", brand); ("sku", VStr "296-1434-5-ND")]] in
  let part_dict := VDict [("uid", VInt 39619421); ("mpn", VStr "SN74S74N");
                          ("detail_url", VStr "http://octopart.com/sn74s74n");
                          ("manufacturer", brand); ("offers", offers)] in
  exists part,
    OctopartPart.init part_dict = Return part
    /\ getattr part "offers" <> Return offers.
Proof. eexists. split; [reflexivity|]. cbn. discriminate. Qed.

(** C5, amended: from a mapping that supplies [uid], [mpn], [detail_url]
    and a [manufacturer] sub-mapping with [id], [displayname] and
    [homepage_url], whose offers (if any) carry no [update_ts] and have a
    supplier, and whose specs (if any) have an attribute that is no
    sub-mapping, the constructor yields a Part whose manufacturer is the
    Brand object of the sub-mapping and whose other attributes are the
    values the mapping supplies for the fields of a Part (the defaults
    for absent optional fields), except that the supplier sub-mapping of
    each offer is replaced by its Brand object. *)
Theorem part_from_mapping d m uid mpn detail_url offers specs :
  lookup "manufacturer" d = Some (VDict m) ->
  has_brand_fields m = true ->
  lookup "uid" d = Some uid ->
  lookup "mpn" d = Some mpn ->
  lookup "detail_url" d = Some detail_url ->
  field d "offers" (VList []) = VList offers ->
  forallb plain_offer offers = true ->
  field d "specs" (VList []) = VList specs ->
  forallb plain_spec specs = true ->
  OctopartPart.init (VDict d)
  = Return (VObject ClsPart
              [("uid", uid); ("mpn", mpn); ("manufacturer", brand_of m);
               ("detail_url", detail_url);
               ("avg_price", field d "avg_price" VNone);
               ("avg_avail", field d "avg_avail" VNone);
               ("market_status", field d "market_status" VNone);
               ("num_suppliers", field d "num_suppliers" VNone);
               ("num_authsuppliers", field d "num_authsuppliers" VNone);
               ("short_description", field d "short_description" (VStr ""));
               ("category_ids", field d "category_ids" (VList []));
               ("images", field d "images" (VList []));
               ("datasheets", field d "datasheets" (VList []));
               ("descriptions", field d "descriptions" (VList []));
               ("hyperlinks", field d "hyperlinks" (VDict []));
               ("offers", VList (map with_supplier_brand offers));
               ("specs", VList specs)]).
Proof.
  intros Hman Hm Huid Hmpn Hurl Hoffers Hplain Hspecs Hplain'.
  unfold OctopartPart.init.
  rewrite (subscript_dict _ _ _ Hman). cbn [bind type_of pytype_eqb].
  rewrite (brand_new_from_dict m Hm). cbn [bind setitem].
  set (d1 := dict_set d "manufacturer" (brand_of m)).
  assert (H1 : forall k, k <> "manufacturer" -> lookup k d1 = lookup k d).
  { intros k Hk. now apply lookup_dict_set_neq. }
  destruct (convert_items_list d1 "offers" OctopartPart.convert_offer
              with_supplier_brand offers) as (d2 & -> & Hoff2 & H2).
  { rewrite <- Hoffers. apply field_same, H1. discriminate. }
  { eapply Forall_impl; [|apply forallb_Forall, Hplain].
    apply convert_offer_plain. }
  cbn [bind].
  destruct (convert_items_list d2 "specs" OctopartPart.convert_spec
              (fun x => x) specs) as (d3 & -> & Hspec3 & H3).
  { rewrite <- Hspecs. apply field_same.
    rewrite H2, H1 by discriminate. reflexivity. }
  { eapply Forall_impl; [|apply forallb_Forall, Hplain'].
    apply convert_spec_plain. }
  cbn [bind]. rewrite map_id in Hspec3.
  assert (H : forall k, k <> "manufacturer" -> k <> "offers" -> k <> "specs" ->
                        lookup k d3 = lookup k d).
  { intros k Ha Hb Hc. now rewrite H3, H2, H1. }
  rewrite (subscript_dict d3 "uid" uid) by (rewrite H; [assumption|discriminate..]).
  rewrite (subscript_dict d3 "mpn" mpn) by (rewrite H; [assumption|discriminate..]).
  rewrite (subscript_dict d3 "manufacturer" (brand_of m)).
  2:{ rewrite H3, H2 by discriminate. apply lookup_dict_set_eq. }
  rewrite (subscript_dict d3 "detail_url" detail_url)
    by (rewrite H; [assumption|discriminate..]).
  rewrite !get_default_dict. cbn [bind].
  rewrite Hspec3.
  rewrite (field_same d2 d3 "offers") by (apply H3; discriminate).
  rewrite Hoff2.
  repeat (f_equal; try (apply field_same, H; discriminate)).
Qed.

Lemma part_from_mapping_witness :
  let brand := [("id", VInt 370); ("displayname", VStr "Texas Instruments");
                ("homepage_url", VStr "http://www.ti.com")] in
  let offer := VDict [("supplier", VDict brand); ("sku", VStr "296-1434-5-ND")] in
  exists attrs,
    OctopartPart.init
      (VDict [("uid", VInt 39619421); ("mpn", VStr "SN74S74N");
              ("detail_url", VStr "http://octopart.com/sn74s74n");
              ("avg_price", VInt 2);
              ("manufacturer", VDict brand); ("offers", VList [offer])])
    = Return (VObject ClsPart attrs)
    /\ lookup "manufacturer" attrs = Some (brand_of brand)
    /\ lookup "avg_price" attrs = Some (VInt 2)
    /\ lookup "offers" attrs = Some (VList [with_supplier_brand offer]).
Proof.
  intros brand offer. eexists. split.
  - apply (part_from_mapping _ brand (VInt 39619421) (VStr "SN74S74N")
             (VStr "http://octopart.com/sn74s74n") [offer] []);
      reflexivity.
  - repeat split.
Defined.

(** ** Key translation *)

Lemma distinct_NoDup l : distinct l = true <-> NoDup l.
Proof.
  induction l as [|k l IH]; cbn.
  - split; [constructor|reflexivity].
  - rewrite andb_true_iff, negb_true_iff, IH. split.
    + intros [Hk Hl]. constructor; [|assumption].
      intros Hin. apply mem_In in Hin. congruence.
    + intros Hnd. inversion Hnd as [|? ? Hk Hl]. split; [|assumption].
      destruct (mem k l) eqn:Hm; [|reflexivity]. apply mem_In in Hm. tauto.
Qed.

Lemma In_lookup (d : dict) k x :
  NoDup (keys d) -> In (k, x) d -> lookup k d = Some x.
Proof.
  induction d as [|[k' x'] d IH]; cbn; [tauto|].
  intros Hnd [Heq|Hin].
  - injection Heq as -> ->. now rewrite String.eqb_refl.
  - inversion Hnd as [|? ? Hk Hd]. destruct (String.eqb_spec k k') as [->|_].
    + exfalso. apply Hk. change (In (fst (k', x)) (map fst d)). now apply in_map.
    + auto.
Qed.

Lemma lookup_In {A} (d : list (string * A)) k x : lookup k d = Some x -> In (k, x) d.
Proof.
  induction d as [|[k' x'] d IH]; cbn; [discriminate|].
  destruct (String.eqb_spec k k') as [->|_]; [|auto].
  intros [= ->]. now left.
Qed.

Lemma dict_set_same d k x : lookup k d = Some x -> dict_set d k x = d.
Proof.
  induction d as [|[k' x'] d IH]; cbn; [discriminate|].
  destruct (String.eqb_spec k k') as [->|_].
  - now intros [= ->].
  - intros H. now rewrite IH.
Qed.

Lemma lookup_dict_remove_neq d k k' :
  k <> k' -> lookup k (dict_remove d k') = lookup k d.
Proof.
  intros Hk. induction d as [|[k0 v0] d IH]; cbn; [reflexivity|].
  destruct (String.eqb_spec k' k0) as [->|_]; cbn.
  - destruct (String.eqb_spec k k0); [contradiction|reflexivity].
  - destruct (String.eqb k k0); [reflexivity|exact IH].
Qed.

Lemma translation_target_not_alias k k' :
  lookup k translation = Some k' -> is_alias k' = false.
Proof.
  intros H. apply lookup_In in H. cbn in H.
  repeat (destruct H as [H|H]; [injection H as <- <-; reflexivity|]).
  contradiction.
Qed.

Lemma In_keys_lookup (d : dict) k : In k (keys d) -> lookup k d <> None.
Proof.
  induction d as [|[k' v] d IH]; cbn; [tauto|].
  intros [->|Hin].
  - now rewrite String.eqb_refl.
  - destruct (String.eqb k k'); [discriminate|auto].
Qed.

Lemma keys_dict_set d k v :
  keys (dict_set d k v) = if dict_mem k d then keys d else keys d ++ [k].
Proof.
  unfold dict_mem, keys. induction d as [|[k' v'] d IH]; cbn; [reflexivity|].
  destruct (String.eqb_spec k k') as [->|_]; cbn; [reflexivity|].
  rewrite IH. now destruct (lookup k d).
Qed.

Lemma NoDup_keys_dict_set d k v :
  NoDup (keys d) -> NoDup (keys (dict_set d k v)).
Proof.
  intros Hnd. rewrite keys_dict_set. unfold dict_mem.
  destruct (lookup k d) eqn:Hk; [assumption|].
  apply NoDup_app; [assumption|repeat constructor; cbn; tauto|].
  intros x Hx [<-|[]]. now apply In_keys_lookup in Hx.
Qed.

Lemma In_keys_dict_remove d k k' :
  In k' (keys (dict_remove d k)) -> In k' (keys d).
Proof.
  induction d as [|[k0 v0] d IH]; cbn; [tauto|].
  destruct (String.eqb k k0); cbn; tauto.
Qed.

Lemma NoDup_keys_dict_remove d k :
  NoDup (keys d) -> NoDup (keys (dict_remove d k)).
Proof.
  induction d as [|[k0 v0] d IH]; cbn; [auto|].
  intros Hnd. inversion Hnd as [|? ? Hk0 Hd]; subst.
  destruct (String.eqb k k0); cbn; [assumption|].
  constructor; [|auto]. intros Hin. apply Hk0.
  eapply In_keys_dict_remove; eassumption.
Qed.

Lemma lookup_dict_remove_eq d k :
  NoDup (keys d) -> lookup k (dict_remove d k) = None.
Proof.
  induction d as [|[k0 v0] d IH]; cbn; [reflexivity|].
  intros Hnd. inversion Hnd as [|? ? Hk0 Hd]; subst.
  destruct (String.eqb_spec k k0) as [->|Hne]; cbn.
  - now apply lookup_None_keys.
  - destruct (String.eqb_spec k k0); [contradiction|auto].
Qed.

(** *** What the recursive calls do to the value of a key *)

Lemma nested_max_entry d k x :
  In (k, x) d -> (nested_max nesting x < nesting (VDict d))%nat.
Proof.
  intros Hin. cbn [nesting]. apply Nat.lt_succ_r.
  assert (H : Forall (fun n => (n <= list_max (map (fun kv => nested_max nesting (snd kv)) d))%nat)
                (map (fun kv => nested_max nesting (snd kv)) d))
    by now apply list_max_le.
  rewrite Forall_forall in H. apply H.
  apply in_map_iff. exists (k, x). auto.
Qed.

Lemma nested_max_item l a :
  In a l ->
  (match a with VDict _ => nesting a | _ => O end <= nested_max nesting (VList l))%nat.
Proof.
  intros Hin. cbn [nested_max].
  assert (H : Forall (fun n => (n <= list_max (map (fun a => match a with VDict _ => nesting a | _ => O end) l))%nat)
                (map (fun a => match a with VDict _ => nesting a | _ => O end) l))
    by now apply list_max_le.
  rewrite Forall_forall in H. apply H.
  apply in_map_iff. exists a. auto.
Qed.

(** *** A mapping without aliases comes back as it is *)

Lemma rename_key_not_alias args key :
  is_alias key = false -> rename_key args key = Return args.
Proof.
  unfold is_alias, dict_mem, rename_key.
  now destruct (lookup key translation).
Qed.

Lemma translate_loop_unchanged rt recur renamings todo args :
  Forall (fun key =>
            is_alias key = false
            /\ exists x, lookup key args = Some x
                         /\ translate_nested recur args key x = Return args)
         todo ->
  translate_loop rt recur renamings todo args = Return args.
Proof.
  induction 1 as [|key todo (Hkey & x & Hx & Hn) _ IH];
    [apply translate_loop_nil|].
  rewrite translate_loop_cons. cbn [subscript]. rewrite Hx. cbn [bind].
  rewrite Hn. cbn [bind]. rewrite (rename_key_not_alias _ _ Hkey). cbn [bind].
  unfold is_alias in Hkey. now rewrite Hkey.
Qed.

Lemma translate_periods_at_id rt depth :
  forall v,
    (nesting v < depth)%nat -> alias_free v = true ->
    match v with
    | VDict _ => translate_periods_at rt depth v = Return v
    | _ => True
    end.
Proof.
  induction depth as [|n IH]; intros v Hn Ha; [lia|].
  destruct v as [| | | | | |d|]; try exact I.
  cbn [translate_periods_at].
  rewrite translate_loop_unchanged; [reflexivity|].
  apply Forall_forall. intros key Hkey.
  destruct (lookup key d) as [x|] eqn:Hx; [|now apply In_keys_lookup in Hkey].
  pose proof (lookup_In _ _ _ Hx) as Hin.
  cbn [alias_free] in Ha. rewrite forallb_forall in Ha.
  specialize (Ha _ Hin). cbn in Ha. apply andb_true_iff in Ha.
  destruct Ha as [Hk Hax]. apply negb_true_iff in Hk.
  pose proof (nested_max_entry d key x Hin) as Hnx.
  split; [assumption|]. exists x. split; [reflexivity|].
  unfold translate_nested. destruct x as [| | | |l| |d'|]; try reflexivity.
  - rewrite (mapM_ext_Return _ (fun a => a)).
    + cbn. now rewrite map_id, dict_set_same.
    + apply Forall_forall. intros a Hin'.
      pose proof (nested_max_item l a Hin') as Hna.
      cbn in Hax. rewrite forallb_forall in Hax. specialize (Hax a Hin').
      destruct a; try reflexivity. cbn [translate_item].
      apply (IH (VDict entries)); [lia|assumption].
  - cbn [on_nested] in Hax. cbn [nested_max] in Hnx.
    rewrite (IH (VDict d')); [|lia|assumption].
    cbn [bind]. now rewrite dict_set_same.
Qed.

Lemma translate_periods_id rt d :
  alias_free (VDict d) = true -> translate_periods rt d = Return d.
Proof.
  intros Ha. unfold translate_periods, translate_periods_obj.
  rewrite (translate_periods_at_id rt _ (VDict d)); [reflexivity|lia|assumption].
Qed.

(** *** The calls go no deeper than the dictionaries are nested *)

Lemma Forall_dict_set (P : value -> Prop) args key x :
  Forall (fun kv => P (snd kv)) args -> P x ->
  Forall (fun kv => P (snd kv)) (dict_set args key x).
Proof.
  intros Hargs Hx. induction Hargs as [|[k v] args Hv Htl IH]; cbn.
  - repeat constructor. exact Hx.
  - destruct (String.eqb key k); constructor; auto.
Qed.

Lemma Forall_dict_remove (P : value -> Prop) args key :
  Forall (fun kv => P (snd kv)) args ->
  Forall (fun kv => P (snd kv)) (dict_remove args key).
Proof.
  intros Hargs. induction Hargs as [|[k v] args Hv Hargs IH]; cbn; [constructor|].
  destruct (String.eqb key k); [assumption|]. constructor; auto.
Qed.

Lemma Forall_lookup (P : value -> Prop) (args : dict) key x :
  Forall (fun kv => P (snd kv)) args -> lookup key args = Some x -> P x.
Proof.
  intros Hargs Hx. apply lookup_In in Hx. rewrite Forall_forall in Hargs.
  exact (Hargs _ Hx).
Qed.

Lemma mapM_ext {A B} (f g : A -> result B) l :
  (forall a, In a l -> f a = g a) -> mapM f l = mapM g l.
Proof.
  induction l as [|a l IH]; intros H; cbn; [reflexivity|].
  rewrite (H a (or_introl eq_refl)), IH; [reflexivity|].
  intros a' Ha'. apply H. now right.
Qed.

Section Depth.
Variable rt : runtime.
Variable recur : value -> result value.
Variable D : nat.
(** What the recursive call returns is nested no deeper than what it was
    given. *)
Hypothesis recur_nesting :
  forall x x', recur x = Return x' -> (nested_max nesting x' <= nesting x)%nat.

Lemma translate_items_nesting l l' :
  mapM (translate_item recur) l = Return l' ->
  (nested_max nesting (VList l) <= D)%nat ->
  (nested_max nesting (VList l') <= D)%nat.
Proof.
  cbn [nested_max]. rewrite !list_max_le.
  revert l'. induction l as [|a l IH]; intros l'; cbn [mapM].
  - now intros [= <-].
  - destruct (translate_item recur a) as [a'|e] eqn:Ha; cbn [bind];
      [|discriminate].
    destruct (mapM _ l) as [r|e]; cbn [bind]; [|discriminate].
    intros [= <-] Hmax. cbn [map] in *.
    inversion Hmax as [|? ? Hhd Htl]; subst. constructor; [|now apply IH].
    destruct a; cbn in Ha; try (injection Ha as <-; lia).
    apply recur_nesting in Ha. destruct a'; cbn [nested_max] in *; lia.
Qed.

Lemma translate_nested_nesting args key x args1 :
  Forall (fun kv => (nested_max nesting (snd kv) <= D)%nat) args ->
  lookup key args = Some x ->
  translate_nested recur args key x = Return args1 ->
  Forall (fun kv => (nested_max nesting (snd kv) <= D)%nat) args1.
Proof.
  intros Hargs Hx. pose proof (Forall_lookup (fun v => (nested_max nesting v <= D)%nat) _ _ _ Hargs Hx) as HD.
  cbn beta in HD. unfold translate_nested.
  destruct x as [| | | |l| |d|]; try (now intros [= <-]).
  - destruct (mapM _ l) as [l'|e] eqn:Hl; cbn [bind]; [|discriminate].
    intros [= <-].
    apply (Forall_dict_set (fun v => (nested_max nesting v <= D)%nat));
      [assumption|].
    eapply translate_items_nesting; eassumption.
  - destruct (recur (VDict d)) as [x'|e] eqn:Hr; cbn [bind]; [|discriminate].
    intros [= <-].
    apply (Forall_dict_set (fun v => (nested_max nesting v <= D)%nat));
      [assumption|].
    apply recur_nesting in Hr. cbn [nested_max] in HD. lia.
Qed.

Lemma rename_key_nesting args key args2 :
  Forall (fun kv => (nested_max nesting (snd kv) <= D)%nat) args ->
  rename_key args key = Return args2 ->
  Forall (fun kv => (nested_max nesting (snd kv) <= D)%nat) args2.
Proof.
  intros Hargs. unfold rename_key.
  destruct (lookup key translation); [|now intros [= <-]].
  unfold dict_pop. destruct (lookup key args) as [v|] eqn:Hv; cbn [bind];
    [|discriminate].
  destruct (dict_mem _ _); [discriminate|]. intros [= <-].
  apply (Forall_dict_set (fun v => (nested_max nesting v <= D)%nat)).
  - now apply (Forall_dict_remove (fun v => (nested_max nesting v <= D)%nat)).
  - exact (Forall_lookup (fun v => (nested_max nesting v <= D)%nat) _ _ _ Hargs Hv).
Qed.

Lemma translate_loop_nesting renamings :
  forall todo args out,
    Forall (fun kv => (nested_max nesting (snd kv) <= D)%nat) args ->
    translate_loop rt recur renamings todo args = Return out ->
    Forall (fun kv => (nested_max nesting (snd kv) <= D)%nat) out.
Proof.
  induction renamings as [|n IHn]; intros todo;
    induction todo as [|key todo IH]; intros args out Hargs;
    rewrite ?translate_loop_nil, ?translate_loop_cons;
    try (now intros [= <-]); cbn [subscript];
    (destruct (lookup key args) as [x|] eqn:Hx; cbn [bind]; [|discriminate]);
    (destruct (translate_nested recur args key x) as [args1|e] eqn:H1;
     cbn [bind]; [|discriminate]);
    pose proof (translate_nested_nesting _ _ _ _ Hargs Hx H1) as Hargs1;
    (destruct (rename_key args1 key) as [args2|e] eqn:H2; cbn [bind];
     [|discriminate]);
    pose proof (rename_key_nesting _ _ _ Hargs1 H2) as Hargs2;
    destruct (dict_mem key translation).
  - now intros [= <-].
  - now apply IH.
  - now apply IHn.
  - now apply IH.
Qed.

(** A second recursive call that agrees with the first on the values
    nested within [D] gives the same loop. *)
Variable recur' : value -> result value.
Hypothesis recur_agrees :
  forall x, (nesting x <= D)%nat -> recur x = recur' x.

Lemma translate_nested_agrees args key x :
  Forall (fun kv => (nested_max nesting (snd kv) <= D)%nat) args ->
  lookup key args = Some x ->
  translate_nested recur args key x = translate_nested recur' args key x.
Proof.
  intros Hargs Hx. pose proof (Forall_lookup (fun v => (nested_max nesting v <= D)%nat) _ _ _ Hargs Hx) as HD.
  cbn beta in HD. unfold translate_nested.
  destruct x as [| | | |l| |d|]; try reflexivity.
  - rewrite (mapM_ext (translate_item recur) (translate_item recur')); [reflexivity|].
    intros a Ha. pose proof (nested_max_item l a Ha) as Hna.
    destruct a; try reflexivity. cbn [translate_item].
    apply recur_agrees. lia.
  - cbn [nested_max] in HD. now rewrite recur_agrees.
Qed.

Lemma translate_loop_agrees renamings :
  forall todo args,
    Forall (fun kv => (nested_max nesting (snd kv) <= D)%nat) args ->
    translate_loop rt recur renamings todo args
    = translate_loop rt recur' renamings todo args.
Proof.
  induction renamings as [|n IHn]; intros todo;
    induction todo as [|key todo IH]; intros args Hargs;
    rewrite ?translate_loop_nil, ?translate_loop_cons; try reflexivity;
    cbn [subscript];
    (destruct (lookup key args) as [x|] eqn:Hx; cbn [bind]; [|reflexivity]);
    rewrite <- (translate_nested_agrees _ _ _ Hargs Hx);
    (destruct (translate_nested recur args key x) as [args1|e] eqn:H1;
     cbn [bind]; [|reflexivity]);
    pose proof (translate_nested_nesting _ _ _ _ Hargs Hx H1) as Hargs1;
    (destruct (rename_key args1 key) as [args2|e] eqn:H2; cbn [bind];
     [|reflexivity]);
    pose proof (rename_key_nesting _ _ _ Hargs1 H2) as Hargs2;
    destruct (dict_mem key translation); auto.
Qed.
End Depth.

Lemma Forall_nesting (d : dict) :
  Forall (fun kv =>
            (nested_max nesting (snd kv)
             <= list_max (map (fun kv => nested_max nesting (snd kv)) d))%nat) d.
Proof.
  apply Forall_forall. intros [k x] Hin.
  pose proof (nested_max_entry d k x Hin) as H. cbn [nesting] in H. cbn. lia.
Qed.

Lemma translate_periods_at_nesting rt depth :
  forall v v',
    translate_periods_at rt depth v = Return v' ->
    (nested_max nesting v' <= nesting v)%nat.
Proof.
  induction depth as [|n IH]; intros v v'; [discriminate|].
  destruct v as [| | | | | |d|]; try discriminate. cbn [translate_periods_at].
  destruct (translate_loop _ _ _ _ d) as [d'|e] eqn:Hloop; cbn [bind];
    [|discriminate].
  intros [= <-]. cbn [nested_max nesting]. apply le_n_S.
  apply list_max_le, Forall_map.
  eapply (translate_loop_nesting rt _ _ IH); [|exact Hloop].
  apply Forall_nesting.
Qed.

(** The depth allowed makes no difference once it exceeds the nesting. *)
Lemma translate_periods_at_depth rt depth :
  forall depth' v,
    (nesting v < depth)%nat -> (nesting v < depth')%nat ->
    translate_periods_at rt depth v = translate_periods_at rt depth' v.
Proof.
  induction depth as [|n IH]; intros [|m] v Hn Hm; try lia.
  destruct v as [| | | | | |d|]; try reflexivity. cbn [translate_periods_at].
  cbn [nesting] in Hn, Hm.
  rewrite (translate_loop_agrees rt (translate_periods_at rt n)
             (list_max (map (fun kv => nested_max nesting (snd kv)) d))
             (translate_periods_at_nesting rt n) (translate_periods_at rt m));
    [reflexivity| |apply Forall_nesting].
  intros x Hx. apply IH; lia.
Qed.

Lemma translate_periods_at_obj rt depth v :
  (nesting v < depth)%nat ->
  translate_periods_at rt depth v = translate_periods_obj rt v.
Proof. intros H. apply translate_periods_at_depth; [assumption|lia]. Qed.

(** *** The loop descends into the values *)

(** The value step of the loop stores what the recursive calls return for
    the value at [key] and touches no other key. *)
Lemma translate_nested_value recur args key x :
  lookup key args = Some x ->
  match nested_call recur x with
  | Return x' =>
      exists args1,
        translate_nested recur args key x = Return args1
        /\ lookup key args1 = Some x'
        /\ forall k, k <> key -> lookup k args1 = lookup k args
  | Raise e => translate_nested recur args key x = Raise e
  end.
Proof.
  intros Hx. unfold nested_call, translate_nested.
  destruct x as [| | | |l| |d|]; try (exists args; auto).
  - destruct (mapM _ l) as [l'|e]; cbn [bind]; [|reflexivity].
    eexists. split; [reflexivity|]. split; [apply lookup_dict_set_eq|].
    intros k Hk. now apply lookup_dict_set_neq.
  - destruct (recur _) as [x'|e]; cbn [bind]; [|reflexivity].
    eexists. split; [reflexivity|]. split; [apply lookup_dict_set_eq|].
    intros k Hk. now apply lookup_dict_set_neq.
Qed.

Lemma translate_loop_values rt recur renamings todo :
  forall args,
    NoDup todo ->
    Forall (fun key => is_alias key = false) todo ->
    (forall key, In key todo -> lookup key args <> None) ->
    match translate_loop rt recur renamings todo args with
    | Return out =>
        (forall key, ~ In key todo -> lookup key out = lookup key args)
        /\ (forall key x,
              In key todo -> lookup key args = Some x ->
              exists x', nested_call recur x = Return x'
                         /\ lookup key out = Some x')
    | Raise _ =>
        exists key x e,
          In key todo /\ lookup key args = Some x
          /\ nested_call recur x = Raise e
    end.
Proof.
  induction todo as [|key todo IH]; intros args Hnd Hna Hin.
  { rewrite translate_loop_nil. split; [reflexivity|]. intros key x []. }
  rewrite translate_loop_cons. cbn [subscript].
  inversion Hnd as [|? ? Hkey Hnd']; subst.
  inversion Hna as [|? ? Hk Hna']; subst.
  destruct (lookup key args) as [x|] eqn:Hx;
    [|now destruct (Hin key (or_introl eq_refl))].
  cbn [bind]. pose proof (translate_nested_value recur args key x Hx) as Hn.
  destruct (nested_call recur x) as [x'|e] eqn:Hcall.
  - destruct Hn as (args1 & -> & Hl1 & Hs1). cbn [bind].
    rewrite (rename_key_not_alias _ _ Hk). cbn [bind].
    unfold is_alias in Hk. rewrite Hk.
    assert (Hin1 : forall k, In k todo -> lookup k args1 <> None).
    { intros k Hk'. rewrite Hs1 by (intros ->; contradiction).
      apply Hin. now right. }
    specialize (IH args1 Hnd' Hna' Hin1).
    destruct (translate_loop rt recur renamings todo args1) as [out|e'].
    + destruct IH as [Hout Hval]. split.
      * intros k Hk'. rewrite Hout by (intros H; apply Hk'; now right).
        apply Hs1. intros ->. apply Hk'. now left.
      * intros k y [<-|Hk'] Hy.
        -- rewrite Hx in Hy. injection Hy as <-. exists x'.
           split; [assumption|]. now rewrite Hout.
        -- apply Hval; [assumption|].
           rewrite Hs1; [assumption|]. intros ->. contradiction.
    + destruct IH as (k & y & e0 & Hk' & Hy & He0).
      exists k, y, e0. split; [now right|]. split; [|assumption].
      rewrite <- Hy. symmetry. apply Hs1. intros ->. contradiction.
  - rewrite Hn. cbn [bind]. exists key, x, e. split; [now left|]. auto.
Qed.

Lemma nested_call_depth rt depth x :
  (nested_max nesting x < depth)%nat ->
  nested_call (translate_periods_at rt depth) x = translate_value rt x.
Proof.
  intros Hx. unfold nested_call, translate_value.
  destruct x as [| | | |l| |d|]; try reflexivity.
  - rewrite (mapM_ext (translate_item (translate_periods_at rt depth))
               (translate_item (translate_periods_obj rt))); [reflexivity|].
    intros a Ha. pose proof (nested_max_item l a Ha) as Hna.
    destruct a; try reflexivity. cbn [translate_item].
    apply translate_periods_at_obj. lia.
  - apply translate_periods_at_obj. exact Hx.
Qed.

Lemma translate_periods_values rt d :
  NoDup (keys d) ->
  Forall (fun key => is_alias key = false) (keys d) ->
  match translate_periods rt d with
  | Return d' =>
      forall key x,
        lookup key d = Some x ->
        exists x', translate_value rt x = Return x' /\ lookup key d' = Some x'
  | Raise _ =>
      exists key x e, lookup key d = Some x /\ translate_value rt x = Raise e
  end.
Proof.
  intros Hnd Hna. unfold translate_periods, translate_periods_obj.
  cbn [translate_periods_at].
  pose proof (translate_loop_values rt (translate_periods_at rt (nesting (VDict d)))
                (List.length d) (keys d) d Hnd Hna (In_keys_lookup d)) as H.
  assert (Hcall : forall key x,
             lookup key d = Some x ->
             nested_call (translate_periods_at rt (nesting (VDict d))) x
             = translate_value rt x).
  { intros key x Hx. apply nested_call_depth.
    eapply nested_max_entry, lookup_In, Hx. }
  destruct (translate_loop _ _ _ _ d) as [d'|e]; cbn [bind].
  - destruct H as [_ Hval]. intros key x Hx.
    destruct (Hval key x) as (x' & Hx' & Hl); [|assumption|].
    + eapply lookup_Some_keys; eassumption.
    + exists x'. rewrite <- (Hcall key x Hx). auto.
  - destruct H as (key & x & e0 & _ & Hx & He0).
    exists key, x, e0. rewrite <- (Hcall key x Hx). auto.
Qed.

(** *** A mapping with one alias *)

Lemma translate_nested_fixed recur args key x :
  lookup key args = Some x ->
  nested_call recur x = Return x ->
  translate_nested recur args key x = Return args.
Proof.
  intros Hx. unfold nested_call, translate_nested.
  destruct x as [| | | |l| |d|]; try reflexivity.
  - destruct (mapM _ l) as [l'|e]; cbn [bind]; [|discriminate].
    intros [= ->]. now rewrite dict_set_same.
  - intros ->. cbn [bind]. now rewrite dict_set_same.
Qed.

Lemma nested_call_id rt depth x :
  (nested_max nesting x < depth)%nat ->
  on_nested alias_free x = true ->
  nested_call (translate_periods_at rt depth) x = Return x.
Proof.
  intros Hn Ha. unfold nested_call.
  destruct x as [| | | |l| |d|]; try reflexivity.
  - rewrite (mapM_ext_Return _ (fun a => a)); [cbn; now rewrite map_id|].
    apply Forall_forall. intros a Hin.
    pose proof (nested_max_item l a Hin) as Hna.
    cbn in Ha. rewrite forallb_forall in Ha. specialize (Ha a Hin).
    destruct a; try reflexivity. cbn [translate_item].
    apply (translate_periods_at_id rt depth (VDict entries)); [lia|assumption].
  - apply (translate_periods_at_id rt depth (VDict d)); assumption.
Qed.

Lemma translate_loop_one_alias rt recur k todo :
  forall renamings args,
    NoDup (keys args) ->
    (forall key x, lookup key args = Some x -> nested_call recur x = Return x) ->
    (forall j, In j (keys args) -> is_alias j = true -> j = k) ->
    (forall key, In key todo -> In key (keys args)) ->
    In k todo -> is_alias k = true ->
    translate_loop rt recur (S renamings) todo args = rename_key args k.
Proof.
  induction todo as [|key todo IH];
    intros renamings args Hnd Hfix Honly Htodo Hk Ha; [contradiction|].
  rewrite translate_loop_cons. cbn [subscript].
  destruct (lookup key args) as [x|] eqn:Hx.
  2:{ exfalso. apply (In_keys_lookup args key); [|assumption].
      apply Htodo. now left. }
  cbn [bind].
  rewrite (translate_nested_fixed _ _ _ _ Hx (Hfix _ _ Hx)). cbn [bind].
  destruct (String.eqb_spec key k) as [->|Hne].
  - destruct (rename_key args k) as [args2|e] eqn:H2; cbn [bind]; [|reflexivity].
    unfold is_alias in Ha. rewrite Ha.
    apply translate_loop_unchanged, Forall_forall. intros j Hj.
    unfold remaining in Hj. apply filter_In in Hj. destruct Hj as [_ Hj].
    unfold dict_mem in Hj. destruct (lookup j args2) as [y|] eqn:Hy;
      [|discriminate].
    assert (Hjy : is_alias j = false /\ nested_call recur y = Return y).
    { revert H2 Hy. unfold rename_key.
      destruct (lookup k translation) as [k'|] eqn:Ht;
        [|unfold dict_mem in Ha; now rewrite Ht in Ha].
      unfold dict_pop. rewrite Hx. cbn [bind].
      destruct (dict_mem k' (dict_remove args k)); [discriminate|].
      intros [= <-] Hy.
      destruct (String.eqb_spec j k') as [->|Hjk'].
      - rewrite lookup_dict_set_eq in Hy. injection Hy as <-.
        split; [eapply translation_target_not_alias; eassumption|].
        eapply Hfix; eassumption.
      - rewrite lookup_dict_set_neq in Hy by assumption.
        assert (Hjk : j <> k).
        { intros ->. now rewrite lookup_dict_remove_eq in Hy. }
        rewrite lookup_dict_remove_neq in Hy by assumption.
        split; [|eapply Hfix; eassumption].
        destruct (is_alias j) eqn:Hj'; [|reflexivity]. exfalso. apply Hjk.
        apply Honly; [|assumption]. eapply lookup_Some_keys; eassumption. }
    destruct Hjy as [Hja Hjfix]. split; [assumption|].
    exists y. split; [reflexivity|].
    apply translate_nested_fixed; assumption.
  - assert (Hkey : is_alias key = false).
    { destruct (is_alias key) eqn:Hkey; [|reflexivity]. exfalso. apply Hne.
      apply Honly; [|assumption]. apply Htodo. now left. }
    rewrite (rename_key_not_alias _ _ Hkey). cbn [bind].
    unfold is_alias in Hkey. rewrite Hkey.
    apply IH; auto.
    + intros j Hj. apply Htodo. now right.
    + destruct Hk as [Hk|Hk]; [contradiction|assumption].
Qed.

Lemma translate_periods_at_one_alias rt depth d k :
  (nesting (VDict d) <= depth)%nat ->
  NoDup (keys d) ->
  forallb (fun kv => on_nested alias_free (snd kv)) d = true ->
  In k (keys d) -> is_alias k = true ->
  (forall j, In j (keys d) -> is_alias j = true -> j = k) ->
  translate_periods_at rt (S depth) (VDict d)
  = (d' <- rename_key d k ;; Return (VDict d')).
Proof.
  intros Hn Hnd Hfree Hk Ha Honly. cbn [translate_periods_at].
  destruct d as [|kv d0] eqn:Hd; [contradiction|]. rewrite <- Hd in *.
  replace (List.length d) with (S (List.length d0)) by now rewrite Hd.
  rewrite (translate_loop_one_alias rt _ k); auto.
  intros key x Hx. pose proof (lookup_In _ _ _ Hx) as Hin.
  apply nested_call_id.
  - pose proof (nested_max_entry d key x Hin). lia.
  - rewrite forallb_forall in Hfree. exact (Hfree _ Hin).
Qed.

Lemma translate_periods_one_alias rt d k :
  NoDup (keys d) ->
  forallb (fun kv => on_nested alias_free (snd kv)) d = true ->
  In k (keys d) -> is_alias k = true ->
  (forall j, In j (keys d) -> is_alias j = true -> j = k) ->
  translate_periods rt d = rename_key d k.
Proof.
  intros Hnd Hfree Hk Ha Honly.
  unfold translate_periods, translate_periods_obj.
  rewrite (translate_periods_at_one_alias rt _ d k); auto.
  destruct (rename_key d k); reflexivity.
Qed.

(** *** The bound on the renamings is not reached *)

Lemma translate_nested_keys recur args key x args1 :
  lookup key args = Some x ->
  translate_nested recur args key x = Return args1 ->
  keys args1 = keys args.
Proof.
  intros Hx. unfold translate_nested.
  assert (Hset : forall v, keys (dict_set args key v) = keys args).
  { intros v. rewrite keys_dict_set. unfold dict_mem. now rewrite Hx. }
  destruct x as [| | | |l| |d|]; try (now intros [= <-]).
  - destruct (mapM _ l); cbn [bind]; [|discriminate]. intros [= <-]. apply Hset.
  - destruct (recur _); cbn [bind]; [|discriminate]. intros [= <-]. apply Hset.
Qed.

Lemma aliases_dict_remove (d : dict) k :
  is_alias k = true -> In k (keys d) ->
  S (aliases (dict_remove d k)) = aliases d.
Proof.
  intros Ha. unfold aliases, keys.
  induction d as [|[k0 v0] d IH]; cbn [dict_remove map fst filter In];
    [tauto|].
  intros Hin. destruct (String.eqb_spec k k0) as [<-|Hne].
  - now rewrite Ha.
  - destruct Hin as [->|Hin]; [contradiction|].
    cbn [map fst filter]. destruct (is_alias k0); cbn [List.length];
      now rewrite <- IH.
Qed.

Lemma rename_key_aliases args key args2 :
  is_alias key = true ->
  rename_key args key = Return args2 ->
  S (aliases args2) = aliases args.
Proof.
  intros Ha. unfold rename_key.
  destruct (lookup key translation) as [key'|] eqn:Ht;
    [|unfold is_alias, dict_mem in Ha; now rewrite Ht in Ha].
  unfold dict_pop. destruct (lookup key args) as [v|] eqn:Hv; [|discriminate].
  cbn [bind]. destruct (dict_mem key' (dict_remove args key)) eqn:Hm;
    [discriminate|].
  intros [= <-]. rewrite <- (aliases_dict_remove args key Ha).
  2:{ eapply lookup_Some_keys; eassumption. }
  unfold aliases. rewrite keys_dict_set, Hm, filter_app, length_app. cbn.
  rewrite (translation_target_not_alias _ _ Ht). cbn. lia.
Qed.

Lemma translate_loop_renamings rt recur n :
  forall m todo args,
    (aliases args <= n)%nat -> (aliases args <= m)%nat ->
    translate_loop rt recur n todo args = translate_loop rt recur m todo args.
Proof.
  induction n as [|n IHn]; intros m todo;
    induction todo as [|key todo IH]; intros args Hn Hm;
    rewrite ?translate_loop_nil; try reflexivity;
    rewrite !translate_loop_cons; cbn [subscript];
    (destruct (lookup key args) as [x|] eqn:Hx; [|reflexivity]); cbn [bind];
    (destruct (translate_nested recur args key x) as [args1|e] eqn:H1;
     [|reflexivity]); cbn [bind];
    pose proof (translate_nested_keys _ _ _ _ _ Hx H1) as Hk1;
    assert (Ha1 : aliases args1 = aliases args)
      by (unfold aliases; now rewrite Hk1);
    (destruct (rename_key args1 key) as [args2|e] eqn:H2; [|reflexivity]);
    cbn [bind];
    destruct (dict_mem key translation) eqn:Hkey.
  - apply rename_key_aliases in H2; [lia|exact Hkey].
  - rewrite (rename_key_not_alias _ _ Hkey) in H2. injection H2 as <-.
    apply IH; lia.
  - apply rename_key_aliases in H2; [|exact Hkey].
    destruct m as [|m]; [lia|]. apply IHn; lia.
  - rewrite (rename_key_not_alias _ _ Hkey) in H2. injection H2 as <-.
    apply IH; lia.
Qed.

Lemma aliases_length (args : dict) : (aliases args <= List.length args)%nat.
Proof.
  unfold aliases, keys. rewrite <- (length_map fst args). apply filter_length_le.
Qed.

(** More renamings allowed than the dictionary has keys change nothing. *)
Lemma translate_loop_enough rt recur n (args : dict) :
  (List.length args <= n)%nat ->
  translate_loop rt recur n (keys args) args
  = translate_loop rt recur (List.length args) (keys args) args.
Proof.
  intros Hn. pose proof (aliases_length args).
  apply translate_loop_renamings; lia.
Qed.

Lemma translate_loop_keys rt recur renamings todo :
  forall args out,
    Forall (fun key => is_alias key = false) todo ->
    translate_loop rt recur renamings todo args = Return out ->
    keys out = keys args.
Proof.
  induction todo as [|key todo IH]; intros args out Hna.
  { rewrite translate_loop_nil. now intros [= <-]. }
  rewrite translate_loop_cons. cbn [subscript].
  inversion Hna as [|? ? Hk Hna']; subst.
  destruct (lookup key args) as [x|] eqn:Hx; [|discriminate]. cbn [bind].
  destruct (translate_nested recur args key x) as [args1|e] eqn:H1;
    [|discriminate].
  cbn [bind]. rewrite (rename_key_not_alias _ _ Hk). cbn [bind].
  unfold is_alias in Hk. rewrite Hk. intros Hout.
  rewrite (IH _ _ Hna' Hout). eapply translate_nested_keys; eassumption.
Qed.

Lemma translate_periods_keys rt d d' :
  Forall (fun key => is_alias key = false) (keys d) ->
  translate_periods rt d = Return d' -> keys d' = keys d.
Proof.
  intros Hna. unfold translate_periods, translate_periods_obj.
  cbn [translate_periods_at].
  destruct (translate_loop _ _ _ _ d) as [out|e] eqn:Hloop; cbn [bind];
    [|discriminate].
  intros [= <-]. eapply translate_loop_keys; eassumption.
Qed.

(** *** The hash table plays no part in a tame mapping *)

Lemma aliases_one (d : dict) :
  aliases d = 1%nat ->
  exists k, In k (keys d) /\ is_alias k = true
            /\ forall j, In j (keys d) -> is_alias j = true -> j = k.
Proof.
  unfold aliases. intros H1.
  destruct (filter is_alias (keys d)) as [|k [|k' l]] eqn:Hf; try discriminate.
  assert (Hk : In k (filter is_alias (keys d))) by (rewrite Hf; now left).
  apply filter_In in Hk. destruct Hk as [Hin Hk]. exists k.
  split; [assumption|]. split; [assumption|].
  intros j Hj Ha.
  assert (Hjf : In j (filter is_alias (keys d))) by (apply filter_In; auto).
  rewrite Hf in Hjf. destruct Hjf as [<-|[]]. reflexivity.
Qed.

Lemma translate_nested_call recur args key x :
  translate_nested recur args key x
  = (x' <- nested_call recur x ;;
     Return (match x with
             | VDict _ | VList _ => dict_set args key x'
             | _ => args
             end)).
Proof.
  unfold translate_nested, nested_call.
  destruct x as [| | | |l| |d|]; try reflexivity.
  destruct (mapM _ l); reflexivity.
Qed.

Lemma translate_loop_no_alias rt rt' recur recur' n n' todo :
  forall args,
    NoDup todo ->
    Forall (fun key => is_alias key = false) todo ->
    (forall key x,
        In key todo -> lookup key args = Some x ->
        nested_call recur x = nested_call recur' x) ->
    translate_loop rt recur n todo args = translate_loop rt' recur' n' todo args.
Proof.
  induction todo as [|key todo IH]; intros args Hnd Hna Hcall.
  { now rewrite !translate_loop_nil. }
  rewrite !translate_loop_cons. cbn [subscript].
  inversion Hnd as [|? ? Hkey Hnd']; subst.
  inversion Hna as [|? ? Hk Hna']; subst.
  destruct (lookup key args) as [x|] eqn:Hx; [|reflexivity]. cbn [bind].
  rewrite !translate_nested_call, (Hcall key x (or_introl eq_refl) Hx).
  destruct (nested_call recur' x) as [x'|e]; [|reflexivity]. cbn [bind].
  rewrite (rename_key_not_alias _ _ Hk). cbn [bind].
  unfold is_alias in Hk. rewrite Hk.
  apply IH; [assumption|assumption|].
  intros key0 x0 Hin Hx0. apply (Hcall key0 x0); [now right|].
  rewrite <- Hx0. destruct x; try reflexivity;
    (symmetry; apply lookup_dict_set_neq; intros ->; contradiction).
Qed.

Lemma translate_periods_at_tame rt rt' depth :
  forall v,
    (nesting v < depth)%nat -> tame v = true ->
    translate_periods_at rt depth v = translate_periods_at rt' depth v.
Proof.
  induction depth as [|depth IH]; intros v Hn Ht; [lia|].
  destruct v as [| | | | | |d|]; try reflexivity.
  cbn [tame] in Ht. apply andb_true_iff in Ht. destruct Ht as [Hd Ht].
  apply distinct_NoDup in Hd. apply orb_true_iff in Ht.
  destruct Ht as [Ht|Ht].
  - cbn [translate_periods_at].
    rewrite (translate_loop_no_alias rt rt' _ (translate_periods_at rt' depth)
               _ (List.length d)); [reflexivity|assumption| |].
    + apply Forall_forall. intros key Hkey.
      destruct (lookup key d) as [x|] eqn:Hx;
        [|now apply In_keys_lookup in Hkey].
      rewrite forallb_forall in Ht. specialize (Ht _ (lookup_In _ _ _ Hx)).
      cbn in Ht. apply andb_true_iff in Ht. now apply negb_true_iff.
    + intros key x _ Hx. pose proof (lookup_In _ _ _ Hx) as Hin.
      rewrite forallb_forall in Ht. specialize (Ht _ Hin). cbn in Ht.
      apply andb_true_iff in Ht. destruct Ht as [_ Hx'].
      pose proof (nested_max_entry d key x Hin) as Hnx.
      unfold nested_call. destruct x as [| | | |l| |d'|]; try reflexivity.
      * rewrite (mapM_ext (translate_item (translate_periods_at rt depth))
                   (translate_item (translate_periods_at rt' depth)));
          [reflexivity|].
        intros a Ha. pose proof (nested_max_item l a Ha) as Hna.
        cbn in Hx'. rewrite forallb_forall in Hx'. specialize (Hx' a Ha).
        destruct a; try reflexivity. cbn [translate_item].
        apply IH; [lia|assumption].
      * apply IH; [cbn [nested_max] in Hnx; lia|assumption].
  - apply andb_true_iff in Ht. destruct Ht as [H1 Hfree].
    apply Nat.eqb_eq in H1.
    destruct (aliases_one d H1) as (k & Hk & Ha & Honly).
    rewrite !(translate_periods_at_one_alias _ depth d k); auto; lia.
Qed.

Lemma translate_value_tame rt rt' x :
  on_nested tame x = true -> translate_value rt x = translate_value rt' x.
Proof.
  intros Ht. unfold translate_value, translate_periods_obj.
  destruct x as [| | | |l| |d|]; try reflexivity.
  - rewrite (mapM_ext (translate_item (translate_periods_obj rt))
               (translate_item (translate_periods_obj rt'))); [reflexivity|].
    intros a Ha. cbn in Ht. rewrite forallb_forall in Ht. specialize (Ht a Ha).
    destruct a; try reflexivity. cbn [translate_item].
    unfold translate_periods_obj. apply translate_periods_at_tame; [lia|assumption].
  - apply translate_periods_at_tame; [lia|assumption].
Qed.

Lemma translate_periods_tame rt rt' d :
  tame (VDict d) = true -> translate_periods rt d = translate_periods rt' d.
Proof.
  intros Ht. unfold translate_periods, translate_periods_obj.
  now rewrite (translate_periods_at_tame rt rt' _ (VDict d)) by (lia || assumption).
Qed.

(** Idempotence is not among the properties of the loop: when the rebuilt
    table leaves the iterator nothing, an alias behind the first one
    stays, and a second application renames it. *)
Lemma translate_periods_again :
  let args := [("q", VStr "resistor"); ("drilldown_include", VBool true);
               ("drilldown_facets_start", VInt 5)] in
  let once := [("q", VStr "resistor"); ("drilldown_facets_start", VInt 5);
               ("drilldown.include", VBool true)] in
  let twice := [("q", VStr "resistor"); ("drilldown.include", VBool true);
                ("drilldown.facets.start", VInt 5)] in
  translate_periods rebuilding args = Return once
  /\ translate_periods rebuilding once = Return twice.
Proof. split; reflexivity. Qed.

(** C3, as stated, fails: [facets_limit] is no alias of the table, so an
    inner options block that holds it comes back unchanged, without a
    [facets.limit] key, whatever the hash tables of the interpreter do. *)
Lemma facets_limit_not_translated :
  let options := VDict [("facets_limit", VInt 10)] in
  is_alias "facets_limit" = false
  /\ forall rt,
      translate_periods rt [("drilldown", options)]
      = Return [("drilldown", options)].
Proof.
  split; [reflexivity|]. intros rt. apply translate_periods_id. reflexivity.
Qed.

(** C3, amended: key translation returns unchanged a mapping none of whose
    keys, at any depth it visits, is an alias of the table (so one whose
    keys are already dotted).  It descends into nested mappings and lists
    of mappings: applied to a mapping none of whose own keys is an alias,
    it keeps the keys and replaces the value of every key by its
    translation (of the mapping, or of the mappings in the list), and it
    raises only if one of these translations does.  A mapping with one
    alias among its keys, and none inside its values, has that key renamed
    to its dotted name, so the options block that holds
    [drilldown_facets_limit] comes back holding [drilldown.facets.limit];
    when the mapping holds the dotted name as well, the translation
    raises.  This is stated of the mappings in which a dictionary has
    one alias among its own keys at most, and then none further inside
    ([tame]): of them the outcome is the same whatever the hash tables of
    the interpreter do.  What becomes of a mapping with several aliases
    depends on the table, which the loop changes while it iterates over
    it, and is not stated. *)
Theorem translate_periods_dotted_and_nested rt :
  (forall d, alias_free (VDict d) = true -> translate_periods rt d = Return d)
  /\ (forall d,
        distinct (keys d) = true ->
        forallb (fun kv => negb (is_alias (fst kv)) && on_nested tame (snd kv)) d
        = true ->
        match translate_periods rt d with
        | Return d' =>
            keys d' = keys d
            /\ forall key x,
                lookup key d = Some x ->
                exists x', translate_value rt x = Return x'
                           /\ lookup key d' = Some x'
        | Raise _ =>
            exists key x e,
              lookup key d = Some x /\ translate_value rt x = Raise e
        end)
  /\ (forall d k,
        distinct (keys d) = true ->
        forallb (fun kv => on_nested alias_free (snd kv)) d = true ->
        In k (keys d) -> is_alias k = true ->
        (forall j, In j (keys d) -> is_alias j = true -> j = k) ->
        translate_periods rt d = rename_key d k
        /\ translate_value rt (VDict d)
           = (d' <- rename_key d k ;; Return (VDict d')))
  /\ (forall rt' d,
        tame (VDict d) = true ->
        translate_periods rt' d = translate_periods rt d)
  /\ (forall rt' x,
        on_nested tame x = true ->
        translate_value rt' x = translate_value rt x).
Proof.
  split; [exact (translate_periods_id rt)|split; [|split; [|split]]].
  - intros d Hd Ht. apply distinct_NoDup in Hd.
    assert (Hna : Forall (fun key => is_alias key = false) (keys d)).
    { apply Forall_forall. intros key Hkey.
      destruct (lookup key d) as [x|] eqn:Hx;
        [|now apply In_keys_lookup in Hkey].
      rewrite forallb_forall in Ht. specialize (Ht _ (lookup_In _ _ _ Hx)).
      cbn in Ht. apply andb_true_iff in Ht. now apply negb_true_iff. }
    pose proof (translate_periods_values rt d Hd Hna) as H.
    destruct (translate_periods rt d) as [d'|e] eqn:Hd'; [|exact H].
    split; [|exact H]. eapply translate_periods_keys; eassumption.
  - intros d k Hd Hfree Hk Ha Honly. apply distinct_NoDup in Hd.
    split; [now apply translate_periods_one_alias|].
    unfold translate_value, translate_periods_obj.
    apply translate_periods_at_one_alias; auto.
  - intros rt' d. apply translate_periods_tame.
  - intros rt' x. apply translate_value_tame.
Qed.

Lemma translate_periods_dotted_and_nested_witness :
  let rt := rebuilding in
  let dotted := [("q", VStr "resistor"); ("drilldown.include", VBool true);
                 ("options", VDict [("drilldown.facets.limit", VInt 10)])] in
  let block := [("drilldown_facets_limit", VInt 10)] in
  let args := [("q", VStr "resistor"); ("options", VDict block);
               ("blocks", VList [VDict block; VInt 1])] in
  let flat := [("q", VStr "resistor"); ("drilldown_include", VBool true);
               ("filters", VList [VList [VStr "avg_price"; VInt 5]])] in
  translate_periods rt dotted = Return dotted
  /\ (exists d',
        translate_periods rt args = Return d'
        /\ keys d' = ["q"; "options"; "blocks"]
        /\ lookup "options" d'
           = Some (VDict [("drilldown.facets.limit", VInt 10)])
        /\ lookup "blocks" d'
           = Some (VList [VDict [("drilldown.facets.limit", VInt 10)];
                          VInt 1]))
  /\ translate_value rt (VDict block)
     = Return (VDict [("drilldown.facets.limit", VInt 10)])
  /\ translate_periods rt flat
     = Return [("q", VStr "resistor");
               ("filters", VList [VList [VStr "avg_price"; VInt 5]]);
               ("drilldown.include", VBool true)]
  /\ translate_periods rt (("drilldown.include", VBool false) :: flat)
     = Raise RuntimeError
  /\ translate_periods (server 404) args = translate_periods rt args.
Proof.
  intros rt dotted block args flat.
  destruct (translate_periods_dotted_and_nested rt)
    as (Hid & Hnested & Hone & Htame & _).
  split; [apply Hid; reflexivity|].
  split; [|split; [|split; [|split]]].
  - specialize (Hnested args eq_refl eq_refl).
    destruct (translate_periods rt args) as [d'|e] eqn:Hd';
      [|vm_compute in Hd'; discriminate Hd'].
    destruct Hnested as [Hkeys Hval]. exists d'.
    split; [reflexivity|]. split; [exact Hkeys|]. split.
    + destruct (Hval "options" (VDict block) eq_refl) as (x' & Hx & ->).
      vm_compute in Hx. now injection Hx as <-.
    + destruct (Hval "blocks" (VList [VDict block; VInt 1]) eq_refl)
        as (x' & Hx & ->).
      vm_compute in Hx. now injection Hx as <-.
  - destruct (Hone block "drilldown_facets_limit") as [_ H];
      [reflexivity|reflexivity|now left|reflexivity| |rewrite H; reflexivity].
    intros j [<-|[]] _. reflexivity.
  - destruct (Hone flat "drilldown_include") as [H _];
      [reflexivity|reflexivity|right; now left|reflexivity| |
       rewrite H; reflexivity].
    intros j [<-|[<-|[<-|[]]]] Hj; try discriminate Hj. reflexivity.
  - destruct (Hone (("drilldown.include", VBool false) :: flat)
                "drilldown_include") as [H _];
      [reflexivity|reflexivity|right; right; now left|reflexivity| |
       rewrite H; reflexivity].
    intros j [<-|[<-|[<-|[<-|[]]]]] Hj; try discriminate Hj. reflexivity.
  - apply Htame. reflexivity.
Defined.

(** ** The query string *)

















Lemma mapM_Forall2 {A B} (f : A -> result B) l r :
  mapM f l = Return r -> Forall2 (fun a b => f a = Return b) l r.
Proof.
  revert r. induction l as [|a l IH]; intros r; cbn.
  - intros [= <-]. constructor.
  - destruct (f a) as [b|e] eqn:Ha; cbn; [|discriminate].
    destruct (mapM f l) as [r'|e]; cbn; [|discriminate].
    intros [= <-]. constructor; auto.
Qed.

Lemma Forall2_Forall_r {A B} (R : A -> B -> Prop) (P : A -> Prop) (Q : B -> Prop) l r :
  Forall P l -> (forall a b, P a -> R a b -> Q b) -> Forall2 R l r -> Forall Q r.
Proof.
  intros HP HPQ H. induction H as [|a b l r Hab _ IH]; constructor.
  - inversion HP; eauto.
  - apply IH. now inversion HP.
Qed.











(** ** Further properties of the endpoints and of the validator *)

Lemma line_checks_validated_witness :
  line_checks (VDict [("reference", VStr "R1"); ("start", VInt 101);
                      ("limit", VInt 0)])
  = Raise (OctopartException
             (VDict [("reference", VStr "R1"); ("start", VInt 101);
                     ("limit", VInt 0)])
             lines_arg_types lines_arg_ranges 6).
Proof.
  rewrite line_checks_validated.
  - reflexivity.
  - reflexivity.
  - cbn. auto.
Defined.

(** X1: no call of a public method issues a request or returns, and none
    raises an [OctopartException]: the call of [__validate_args], which is
    defined without [self], passes four positionals to three formals. *)
Theorem endpoint_calls_fail rt self e pos kw :
  exists err, call rt self e pos kw = ([], Raise err) /\ plain_error err.
Proof.
  destruct (call_outcome rt self e pos kw) as [err Herr]. exists err.
  split; [assumption|].
  pose proof (call_plain rt self e pos kw) as Hp. now rewrite Herr in Hp.
Qed.

(** X4: what the handlers of the endpoints do with an HTTP error: a 503
    becomes code 8 in every endpoint; a 404 becomes [None] in
    categories/get, parts/get and partattributes/get and code 7 in the
    others; any other status is raised again as it is. *)
Theorem http_error_mapping e args :
  error_code (respond e args (Raise (HTTPError 503))) = Some 8
  /\ (if absent_on_404 e
      then respond e args (Raise (HTTPError 404)) = Return VNone
      else error_code (respond e args (Raise (HTTPError 404))) = Some 7)
  /\ forall status,
      status <> 404 -> status <> 503 ->
      respond e args (Raise (HTTPError status)) = Raise (HTTPError status).
Proof.
  split; [|split].
  - destruct e; reflexivity.
  - destruct e; reflexivity.
  - intros status H404 H503.
    assert (H : forall on404 t r,
               http_error on404 args t r (HTTPError status)
               = Raise (HTTPError status)).
    { intros on404 t r. unfold http_error.
      destruct (Z.eqb_spec status 404); [contradiction|].
      destruct (Z.eqb_spec status 503); [contradiction|reflexivity]. }
    destruct e; apply H.
Qed.

Lemma http_error_mapping_witness :
  respond PartsSearch VNone (Raise (HTTPError 500)) = Raise (HTTPError 500).
Proof. apply (proj2 (proj2 (http_error_mapping PartsSearch VNone))); lia. Defined.

Lemma mapM_Raise {A B} (f : A -> result B) l e :
  mapM f l = Raise e -> exists a, In a l /\ f a = Raise e.
Proof.
  induction l as [|a l IH]; cbn; [discriminate|].
  destruct (f a) as [b|e'] eqn:Ha; cbn.
  - destruct (mapM f l) as [r|e'] eqn:Hl; cbn; [discriminate|].
    intros [= ->]. destruct (IH eq_refl) as (a' & Hin & Ha'). eauto.
  - intros [= ->]. eauto.
Qed.

Lemma validate_arg_codes args arg_types arg_ranges key :
  match error_code (validate_arg args arg_types arg_ranges key) with
  | Some c => c = 2 \/ c = 4 \/ c = 5
  | None => True
  end.
Proof.
  unfold validate_arg. destruct (lookup key arg_types) as [t|]; [|exact I].
  assert (Hsub : plain (subscript args key)).
  { destruct args; cbn; try exact I. destruct (lookup key _); exact I. }
  destruct (subscript args key) as [v|e]; cbn [bind].
  2:{ destruct e; cbn in *; tauto. }
  destruct (pytype_eqb t StringType).
  - destruct (is_basestring v); cbn; [|auto].
    destruct (lookup key arg_ranges) as [rng|]; [|exact I].
    unfold item.
    destruct v; cbn; try exact I;
      destruct rng as [|lo [|hi rng]]; cbn; try exact I;
      destruct (lt_num _ lo); cbn; auto;
      destruct (gt_num _ hi); cbn; auto.
  - destruct (pytype_eqb (type_of v) t); cbn; [|auto].
    destruct (lookup key arg_ranges) as [rng|]; [|exact I].
    destruct (existsb _ _); cbn; auto.
Qed.

Lemma lookup_None_mem {A} k (d : list (string * A)) :
  lookup k d = None -> mem k (map fst d) = false.
Proof.
  induction d as [|[k' v] d IH]; cbn; [reflexivity|].
  destruct (String.eqb k k'); [discriminate|exact IH].
Qed.

(** X6: a call that supplies an argument name which the schema does not
    declare is rejected with the unrecognized-argument kind (code 1),
    before any argument is checked. *)
Theorem unrecognized_argument d arg_types arg_ranges k :
  In k (keys d) ->
  lookup k arg_types = None ->
  validate_args (VDict d) arg_types arg_ranges
  = Raise (OctopartException (VDict d) arg_types arg_ranges 1).
Proof.
  intros Hk Ht. unfold validate_args. cbn [keys_of bind].
  assert (Hsub : issubset (nodup string_dec (keys d)) (map fst arg_types) = false).
  { unfold issubset. destruct (forallb _ _) eqn:Hall; [|reflexivity].
    rewrite forallb_forall in Hall.
    rewrite <- (lookup_None_mem _ _ Ht). symmetry. apply (Hall k).
    now apply nodup_In. }
  now rewrite Hsub.
Qed.

Lemma unrecognized_argument_witness :
  validate_args (VDict [("q", VStr "resistor"); ("page", VInt 2)])
    parts_suggest_types parts_suggest_ranges
  = Raise (OctopartException (VDict [("q", VStr "resistor"); ("page", VInt 2)])
             parts_suggest_types parts_suggest_ranges 1).
Proof. apply (unrecognized_argument _ _ _ "page"); cbn; auto. Defined.

(** X7: on a dictionary, whose keys are distinct, the validator never
    raises the duplicate-argument kind (code 3): the two lengths that
    line 186 compares are equal. *)
Theorem duplicate_argument_unreachable d arg_types arg_ranges :
  NoDup (keys d) ->
  error_code (validate_args (VDict d) arg_types arg_ranges) <> Some 3.
Proof.
  intros Hnd. unfold validate_args. cbn [keys_of bind].
  rewrite (nodup_fixed_point string_dec Hnd).
  destruct (issubset _ _); cbn [negb]; [|discriminate].
  destruct (mapM _ (keys d)) as [r|e] eqn:Hm; cbn [bind].
  - rewrite Nat.eqb_refl. discriminate.
  - apply mapM_Raise in Hm. destruct Hm as (key & _ & Hkey).
    pose proof (validate_arg_codes (VDict d) arg_types arg_ranges key) as Hc.
    rewrite Hkey in Hc. cbn in Hc |- *.
    destruct e; try discriminate. intros [= ->]. lia.
Qed.

Lemma duplicate_argument_unreachable_witness :
  error_code (validate_args (VDict [("q", VStr "a"); ("limit", VInt 50)])
                parts_suggest_types parts_suggest_ranges) <> Some 3.
Proof.
  apply duplicate_argument_unreachable.
  repeat constructor; cbn; intuition discriminate.
Defined.

(** * Further properties of the code *)

(** ** The validator accepts well-typed arguments in range *)

Lemma pyclass_eqb_eq a b : pyclass_eqb a b = true <-> a = b.
Proof. destruct a, b; cbn; split; congruence. Qed.

Lemma pytype_eqb_eq a b : pytype_eqb a b = true <-> a = b.
Proof.
  destruct a, b; cbn; try (split; congruence).
  rewrite pyclass_eqb_eq. split; congruence.
Qed.

Lemma well_typed_check t v :
  (if pytype_eqb t StringType then is_basestring v
   else pytype_eqb (type_of v) t) = true
  <-> well_typed t v.
Proof.
  destruct t; cbn [pytype_eqb well_typed];
    try (rewrite pytype_eqb_eq; reflexivity).
  destruct v; cbn; split; try discriminate; eauto;
    intros [s Hs]; discriminate.
Qed.

Lemma in_range_check t rng v (fail : Z -> result unit) :
  (forall c, fail c <> Return tt) ->
  well_typed t v ->
  (if pytype_eqb t StringType then
     n <- len v ;;
     lo <- item rng 0 ;;
     if lt_num n lo then fail 5
     else hi <- item rng 1 ;;
          if gt_num n hi then fail 5 else Return tt
   else if existsb (eq_num v) rng then Return tt else fail 4) = Return tt
  <-> in_range t rng v.
Proof.
  intros Hfail Ht.
  assert (Hmem : (if existsb (eq_num v) rng then Return tt else fail 4)
                 = Return tt
                 <-> exists n, In n rng /\ eq_num v n = true).
  { rewrite <- existsb_exists. destruct (existsb _ rng); split; try congruence;
      intros H; now apply Hfail in H. }
  destruct t; cbn [pytype_eqb in_range]; try exact Hmem.
  destruct Ht as [s ->]. cbn [len bind]. unfold item.
  destruct rng as [|lo [|hi rest]]; cbn.
  - split; [discriminate|]. intros (s0 & lo & hi & rest & _ & H & _). discriminate.
  - split.
    + destruct (lt_num _ lo); cbn; [|discriminate]. intros H. now apply Hfail in H.
    + intros (s0 & lo0 & hi & rest & _ & H & _). discriminate.
  - split.
    + destruct (lt_num _ lo) eqn:Hlo; [intros H; now apply Hfail in H|].
      destruct (gt_num _ hi) eqn:Hhi; [intros H; now apply Hfail in H|].
      intros _. exists s, lo, hi, rest. auto.
    + intros (s0 & lo0 & hi0 & rest0 & Hs & Hr & Hlo & Hhi).
      injection Hs as <-. injection Hr as <- <- <-.
      now rewrite Hlo, Hhi.
Qed.

(** What makes the validator accept one argument. *)
Lemma validate_arg_accepts d arg_types arg_ranges key :
  validate_arg (VDict d) arg_types arg_ranges key = Return tt
  <-> exists t v,
        lookup key arg_types = Some t /\ lookup key d = Some v
        /\ well_typed t v
        /\ forall rng, lookup key arg_ranges = Some rng -> in_range t rng v.
Proof.
  unfold validate_arg.
  destruct (lookup key arg_types) as [t|];
    [|split; [discriminate|intros (t & v & H & _); discriminate]].
  cbn [subscript].
  destruct (lookup key d) as [v|]; cbn [bind];
    [|split; [discriminate|intros (t0 & v & _ & H & _); discriminate]].
  pose proof (well_typed_check t v) as Hty.
  destruct (if pytype_eqb t StringType then is_basestring v
            else pytype_eqb (type_of v) t) eqn:Hc.
  - assert (Hwt : well_typed t v) by now apply Hty.
    replace (if pytype_eqb t StringType
             then if is_basestring v then Return tt
                  else Raise (OctopartException (VDict d) arg_types arg_ranges 2)
             else if pytype_eqb (type_of v) t then Return tt
                  else Raise (OctopartException (VDict d) arg_types arg_ranges 2))
      with (Return tt : result unit)
      by (destruct (pytype_eqb t StringType); now rewrite Hc).
    cbn [bind].
    destruct (lookup key arg_ranges) as [rng|].
    + pose proof (in_range_check t rng v
                    (fun c => Raise (OctopartException (VDict d) arg_types arg_ranges c))
                    ltac:(discriminate) Hwt) as Hrng.
      cbv beta in Hrng. rewrite Hrng. clear Hrng.
      split.
      * intros Hr. exists t, v. repeat split; try assumption.
        now intros rng0 [= <-].
      * intros (t0 & v0 & [= <-] & [= <-] & _ & Hr). now apply Hr.
    + split; [|reflexivity]. intros _. exists t, v. repeat split; try assumption.
      discriminate.
  - replace (if pytype_eqb t StringType
             then if is_basestring v then Return tt
                  else Raise (OctopartException (VDict d) arg_types arg_ranges 2)
             else if pytype_eqb (type_of v) t then Return tt
                  else Raise (OctopartException (VDict d) arg_types arg_ranges 2))
      with (Raise (OctopartException (VDict d) arg_types arg_ranges 2) : result unit)
      by (destruct (pytype_eqb t StringType); now rewrite Hc).
    cbn [bind]. split; [discriminate|].
    intros (t0 & v0 & [= <-] & [= <-] & Hwt & _).
    apply Hty in Hwt. discriminate.
Qed.

Lemma mapM_unit_Return {A} (f : A -> result unit) l :
  (exists r, mapM f l = Return r) <-> forall a, In a l -> f a = Return tt.
Proof.
  induction l as [|a l IH]; cbn.
  - split; [tauto|eauto].
  - split.
    + intros [r Hr]. destruct (f a) as [[]|e] eqn:Ha; cbn in Hr; [|discriminate].
      destruct (mapM f l) as [r'|e] eqn:Hl; cbn in Hr; [|discriminate].
      intros a' [<-|Hin]; [assumption|]. apply IH; eauto.
    + intros H. rewrite (H a) by auto. cbn.
      destruct (proj2 IH) as [r ->]; [auto|]. cbn. eauto.
Qed.

(** X8: the validator accepts a dictionary of arguments exactly when every
    key is declared in the schema, its value has the declared type (any
    string for a string argument, else the very type, so that neither a
    bool nor a long, an integer beyond [maxint], is an int), and, when the
    ranges have an entry for the key, the value lies in it: a string by
    its length, any other value by membership. *)
Theorem validate_args_accepts d arg_types arg_ranges :
  NoDup (keys d) ->
  validate_args (VDict d) arg_types arg_ranges = Return tt
  <-> forall k v,
        lookup k d = Some v ->
        exists t,
          lookup k arg_types = Some t /\ well_typed t v
          /\ forall rng, lookup k arg_ranges = Some rng -> in_range t rng v.
Proof.
  intros Hnd. unfold validate_args. cbn [keys_of bind].
  rewrite (nodup_fixed_point string_dec Hnd). rewrite Nat.eqb_refl. cbn [negb].
  split.
  - destruct (issubset _ _); cbn [negb]; [|discriminate].
    destruct (mapM _ (keys d)) as [r|e] eqn:Hm; cbn [bind]; [|discriminate].
    intros _ k v Hk.
    assert (Hall := proj1 (mapM_unit_Return _ _) (ex_intro _ r Hm)).
    specialize (Hall k (lookup_Some_keys _ _ _ Hk)).
    apply validate_arg_accepts in Hall.
    destruct Hall as (t & v' & Ht & Hv & Hwt & Hr).
    exists t. rewrite Hk in Hv. injection Hv as <-. auto.
  - intros H.
    assert (Hsub : issubset (keys d) (map fst arg_types) = true).
    { unfold issubset. apply forallb_forall. intros k Hk.
      destruct (lookup k d) as [v|] eqn:Hl.
      - destruct (H k v Hl) as (t & Ht & _). eapply lookup_mem; eassumption.
      - now apply In_keys_lookup in Hk. }
    rewrite Hsub. cbn [negb].
    destruct (proj2 (mapM_unit_Return (validate_arg (VDict d) arg_types arg_ranges)
                       (keys d))) as [r ->]; [|reflexivity].
    intros k Hk. apply validate_arg_accepts.
    destruct (lookup k d) as [v|] eqn:Hl.
    + destruct (H k v Hl) as (t & Ht & Hwt & Hr). exists t, v. auto.
    + now apply In_keys_lookup in Hk.
Qed.

Lemma validate_args_accepts_witness :
  validate_args (VDict [("q", VStr "resistor"); ("limit", VInt 10)])
    parts_suggest_types parts_suggest_ranges = Return tt
  /\ forall k v,
       lookup k [("q", VStr "resistor"); ("limit", VInt 10)] = Some v ->
       exists t,
         lookup k parts_suggest_types = Some t /\ well_typed t v
         /\ forall rng, lookup k parts_suggest_ranges = Some rng -> in_range t rng v.
Proof.
  split; [reflexivity|].
  apply (validate_args_accepts [("q", VStr "resistor"); ("limit", VInt 10)]).
  - repeat constructor; cbn; intuition discriminate.
  - reflexivity.
Defined.

(** ** Error codes and messages *)

Lemma plain_subscript v k : plain (subscript v k).
Proof. destruct v; cbn; try exact I. destruct (lookup k _); exact I. Qed.

Lemma plain_get_default v k default : plain (get_default v k default).
Proof. destruct v; cbn; try exact I. destruct (lookup k _); exact I. Qed.

Lemma plain_iterate v : plain (iterate v).
Proof. destruct v; exact I. Qed.

Lemma plain_setitem v k x : plain (setitem v k x).
Proof. destruct v; exact I. Qed.

Lemma plain_contains v k : plain (contains v k).
Proof. destruct v; exact I. Qed.

Lemma plain_last_item v : plain (last_item v).
Proof. destruct v; cbn; try exact I; destruct (rev _); exact I. Qed.

Lemma plain_drop_last v : plain (drop_last v).
Proof. destruct v; exact I. Qed.

Lemma plain_load_name locals name : plain (load_name locals name).
Proof. unfold load_name. destruct (lookup name locals); exact I. Qed.

Lemma plain_add a b : plain (add a b).
Proof. destruct a, b; exact I. Qed.

Lemma plain_mapM_all {A B} (f : A -> result B) l :
  (forall a, plain (f a)) -> plain (mapM f l).
Proof. intros H. apply plain_mapM, Forall_forall. auto. Qed.

Create HintDb plain.
#[local] Hint Resolve plain_subscript plain_get_default plain_iterate
  plain_setitem plain_contains plain_last_item plain_drop_last
  plain_load_name plain_add : plain.

Ltac plain_crush :=
  repeat first
    [ exact I
    | solve [auto with plain]
    | apply plain_bind; [|intros]
    | apply plain_mapM_all; intros
    | match goal with
      | |- plain (if ?b then _ else _) => destruct b
      | |- plain (match ?x with _ => _ end) => destruct x
      end ].

Lemma plain_brand_new_from_dict v : plain (OctopartBrand.new_from_dict v).
Proof. unfold OctopartBrand.new_from_dict, OctopartBrand.init. plain_crush. Qed.

Lemma plain_category_new_from_dict v : plain (OctopartCategory.new_from_dict v).
Proof.
  unfold OctopartCategory.new_from_dict, OctopartCategory.init. plain_crush.
Qed.

Lemma plain_part_attribute_new_from_dict v :
  plain (OctopartPartAttribute.new_from_dict v).
Proof.
  unfold OctopartPartAttribute.new_from_dict, OctopartPartAttribute.init.
  plain_crush.
Qed.

#[local] Hint Resolve plain_brand_new_from_dict plain_category_new_from_dict
  plain_part_attribute_new_from_dict : plain.

Lemma plain_convert_offer offer : plain (OctopartPart.convert_offer offer).
Proof.
  unfold OctopartPart.convert_offer, OctopartPart.datetime_strptime. plain_crush.
Qed.

Lemma plain_convert_spec spec : plain (OctopartPart.convert_spec spec).
Proof. unfold OctopartPart.convert_spec. plain_crush. Qed.

Lemma plain_for_each_in_place body seq :
  (forall x, plain (body x)) -> plain (for_each_in_place body seq).
Proof. intros H. unfold for_each_in_place. destruct seq; plain_crush. Qed.

Lemma plain_convert_items part_dict key body :
  (forall x, plain (body x)) ->
  plain (OctopartPart.convert_items part_dict key body).
Proof.
  intros H. unfold OctopartPart.convert_items.
  apply plain_bind; [auto with plain|intros seq].
  apply plain_bind; [now apply plain_for_each_in_place|intros seq'].
  plain_crush.
Qed.

Lemma plain_part_init v : plain (OctopartPart.init v).
Proof.
  unfold OctopartPart.init.
  apply plain_bind; [auto with plain|intros manufacturer].
  apply plain_bind; [plain_crush|intros d1].
  apply plain_bind;
    [apply plain_convert_items, plain_convert_offer|intros d2].
  apply plain_bind;
    [apply plain_convert_items, plain_convert_spec|intros d3].
  plain_crush.
Qed.

#[local] Hint Resolve plain_part_init : plain.

(** What a method does with the parsed response raises no
    [OctopartException]. *)
Lemma plain_respond_Return e args json_obj :
  plain (respond e args (Return json_obj)).
Proof.
  destruct e; cbn [respond];
    unfold categories_get_respond, categories_get_multi_respond,
      categories_search_respond, parts_get_respond, parts_get_multi_respond,
      parts_search_respond, parts_suggest_respond, parts_match_respond,
      partattributes_get_respond, partattributes_get_multi_respond,
      bom_match_respond;
    plain_crush.
Qed.

Lemma validate_args_codes args arg_types arg_ranges c :
  error_code (validate_args args arg_types arg_ranges) = Some c -> 1 <= c <= 5.
Proof.
  unfold validate_args. destruct (keys_of args) as [ks|e] eqn:Hks; cbn [bind].
  2:{ destruct args; cbn in Hks; try discriminate; injection Hks as <-;
        discriminate. }
  destruct (issubset _ _); cbn [negb error_code]; [|intros [= <-]; lia].
  destruct (mapM _ _) as [r|e] eqn:Hm; cbn [bind].
  - destruct (_ =? _)%nat; cbn; [discriminate|]. intros [= <-]. lia.
  - apply mapM_Raise in Hm. destruct Hm as (key & _ & Hkey).
    pose proof (validate_arg_codes args arg_types arg_ranges key) as Hc.
    rewrite Hkey in Hc. cbn in Hc |- *.
    destruct e; try discriminate. intros [= ->]. lia.
Qed.

Lemma plain_Raise_code {A B} e :
  plain (Raise e : result A) -> error_code (Raise e : result B) = None.
Proof. destruct e; cbn; tauto. Qed.

Lemma line_checks_codes line c :
  error_code (line_checks line) = Some c -> c = 0 \/ c = 6.
Proof.
  unfold line_checks. destruct (keys_of line) as [ks|e] eqn:Hks; cbn [bind].
  2:{ destruct line; cbn in Hks; try discriminate; injection Hks as <-;
        discriminate. }
  destruct (issubset _ _); cbn [negb error_code]; [|intros [= <-]; auto].
  pose proof (plain_get_default line "start" (VInt 0)) as H1.
  destruct (get_default line "start" _) as [start|e]; cbn [bind];
    [|rewrite (plain_Raise_code e H1); discriminate].
  pose proof (plain_get_default line "match" (VInt 0)) as H2.
  destruct (get_default line "match" _) as [m|e]; cbn [bind];
    [|rewrite (plain_Raise_code e H2); discriminate].
  pose proof (plain_add start m) as H3.
  destruct (add start m) as [total|e]; cbn [bind];
    [|rewrite (plain_Raise_code e H3); discriminate].
  destruct (gt_int total 100); cbn; [intros [= <-]; auto|discriminate].
Qed.

Lemma respond_codes e args r c :
  plain r -> error_code (respond e args r) = Some c -> c = 7 \/ c = 8.
Proof.
  intros Hr. destruct r as [json_obj|err].
  - pose proof (plain_respond_Return e args json_obj) as Hp.
    apply plain_error_code in Hp. congruence.
  - assert (H : forall on404 t rg,
               (on404 = Return VNone \/ on404 = not_found args t rg) ->
               error_code (http_error on404 args t rg err) = Some c ->
               c = 7 \/ c = 8).
    { intros on404 t rg Hon. unfold http_error.
      destruct err; cbn in Hr; try discriminate; try contradiction.
      destruct (code =? 404).
      - destruct Hon as [->| ->]; cbn; [discriminate|]. intros [= <-]. auto.
      - destruct (code =? 503); cbn; [|discriminate]. intros [= <-]. auto. }
    destruct e; cbn [respond]; apply H; auto.
Qed.

Lemma str_of_code rt types_text ranges_text arguments arg_types arg_ranges c :
  0 <= c <= 8 ->
  exists message,
    In (c, message) errors
    /\ OctopartException.__str__ rt types_text ranges_text
         arguments arg_types arg_ranges c
       = Return (message
                 ++ String "010" "Passed arguments: " ++ str rt arguments
                 ++ String "010" "Argument types: " ++ types_text arg_types
                 ++ String "010" "Argument ranges: " ++ ranges_text arg_ranges)%string.
Proof.
  intros Hc.
  assert (H : c = 0 \/ c = 1 \/ c = 2 \/ c = 3 \/ c = 4 \/ c = 5 \/ c = 6
              \/ c = 7 \/ c = 8) by lia.
  unfold OctopartException.__str__.
  repeat (destruct H as [H|H]);
    subst c;
    (eexists; split; [cbn; repeat (first [left; reflexivity|right])|reflexivity]).
Qed.

Lemma str_of_other_code rt types_text ranges_text arguments arg_types arg_ranges c :
  c < 0 \/ 8 < c ->
  OctopartException.__str__ rt types_text ranges_text
    arguments arg_types arg_ranges c = Raise KeyError.
Proof.
  intros Hc. unfold OctopartException.__str__. cbn [find errors fst].
  repeat match goal with
         | |- context [?k =? c] => destruct (Z.eqb_spec k c); [lia|]
         end.
  reflexivity.
Qed.

(** X9: every [OctopartException] that the code raises has a message: the
    validator raises the codes 1 to 5 only, the line checks of bom/match 0
    and 6, the handlers of a response 7 and 8; for each code from 0 to 8
    [__str__] returns the message of the code followed by the passed
    arguments, the argument types and the argument ranges, and for any
    other code it raises a key error. *)
Theorem raised_codes_have_messages rt types_text ranges_text :
  (forall args arg_types arg_ranges c,
      error_code (validate_args args arg_types arg_ranges) = Some c ->
      1 <= c <= 5)
  /\ (forall line c, error_code (line_checks line) = Some c -> c = 0 \/ c = 6)
  /\ (forall e args r c,
        plain r -> error_code (respond e args r) = Some c -> c = 7 \/ c = 8)
  /\ (forall arguments arg_types arg_ranges c,
        0 <= c <= 8 ->
        exists message,
          In (c, message) errors
          /\ OctopartException.__str__ rt types_text ranges_text
               arguments arg_types arg_ranges c
             = Return (message
                       ++ String "010" "Passed arguments: " ++ str rt arguments
                       ++ String "010" "Argument types: " ++ types_text arg_types
                       ++ String "010" "Argument ranges: "
                       ++ ranges_text arg_ranges)%string)
  /\ (forall arguments arg_types arg_ranges c,
        c < 0 \/ 8 < c ->
        OctopartException.__str__ rt types_text ranges_text
          arguments arg_types arg_ranges c = Raise KeyError).
Proof.
  split; [exact validate_args_codes|].
  split; [exact line_checks_codes|].
  split; [exact respond_codes|].
  split; [apply str_of_code|apply str_of_other_code].
Qed.

Lemma raised_codes_have_messages_witness :
  let rt := server 503 in
  let line := VDict [("mpn", VStr "SN74S74N")] in
  error_code (respond PartsSearch VNone (Raise (HTTPError 503))) = Some 8
  /\ error_code (line_checks line) = Some 0
  /\ exists message,
      In (8, message) errors
      /\ OctopartException.__str__ rt (fun _ => "{}") (fun _ => "{}")
           (VStr "x") [] [] 8
         = Return (message
                   ++ String "010" "Passed arguments: x"
                   ++ String "010" "Argument types: {}"
                   ++ String "010" "Argument ranges: {}")%string.
Proof.
  intros rt line.
  destruct (raised_codes_have_messages rt (fun _ => "{}") (fun _ => "{}"))
    as (_ & Hline & Hresp & Hstr & _).
  split; [|split].
  - destruct (Hresp PartsSearch VNone (Raise (HTTPError 503)) 8 I eq_refl)
      as [H|H]; [discriminate H|reflexivity].
  - destruct (Hline line 0 eq_refl) as [H|H]; [reflexivity|discriminate H].
  - apply (Hstr (VStr "x") [] [] 8). lia.
Defined.

(** ** Brand and Category *)

(** X10: [OctopartBrand.new_from_dict] on a mapping that supplies [id],
    [displayname] and [homepage_url] returns a Brand whose attributes read
    back the values of the mapping; on a mapping that lacks one of them it
    raises a key error, and on anything but a mapping a type error. *)
Theorem brand_new_from_dict_fields v :
  match v with
  | VDict d =>
      if supplies d brand_fields
      then exists brand,
             OctopartBrand.new_from_dict v = Return brand
             /\ type_of brand = InstanceType ClsBrand
             /\ Forall (fun k => getattr brand k = subscript v k) brand_fields
      else OctopartBrand.new_from_dict v = Raise KeyError
  | _ => OctopartBrand.new_from_dict v = Raise TypeError
  end.
Proof.
  destruct v as [| | | | | |d|]; try reflexivity.
  unfold supplies, brand_fields, OctopartBrand.new_from_dict, dict_mem.
  cbn [forallb subscript].
  destruct (lookup "id" d) as [id|] eqn:H1; cbn [bind andb]; [|reflexivity].
  destruct (lookup "displayname" d) as [dn|] eqn:H2; cbn [bind andb];
    [|reflexivity].
  destruct (lookup "homepage_url" d) as [hp|] eqn:H3; cbn [bind andb];
    [|reflexivity].
  eexists. split; [reflexivity|]. split; [reflexivity|].
  repeat constructor; cbn; now rewrite ?H1, ?H2, ?H3.
Qed.

(** X11: [OctopartCategory.new_from_dict] on a mapping that supplies the
    seven required fields returns a Category whose attributes read back
    the values of the mapping, with [ancestors] the supplied value or the
    empty list; on a mapping that lacks a required field it raises a key
    error, and on anything but a mapping a type error. *)
Theorem category_new_from_dict_fields v :
  match v with
  | VDict d =>
      if supplies d category_required
      then exists category,
             OctopartCategory.new_from_dict v = Return category
             /\ type_of category = InstanceType ClsCategory
             /\ Forall (fun k => getattr category k = subscript v k)
                  category_required
             /\ getattr category "ancestors"
                = get_default v "ancestors" (VList [])
      else OctopartCategory.new_from_dict v = Raise KeyError
  | _ => OctopartCategory.new_from_dict v = Raise TypeError
  end.
Proof.
  destruct v as [| | | | | |d|]; try reflexivity.
  unfold supplies, category_required, OctopartCategory.new_from_dict, dict_mem.
  cbn [forallb subscript get_default].
  destruct (lookup "id" d) eqn:H1; cbn [bind andb]; [|reflexivity].
  destruct (lookup "parent_id" d) eqn:H2; cbn [bind andb]; [|reflexivity].
  destruct (lookup "nodename" d) eqn:H3; cbn [bind andb]; [|reflexivity].
  destruct (lookup "images" d) eqn:H4; cbn [bind andb]; [|reflexivity].
  destruct (lookup "children_ids" d) eqn:H5; cbn [bind andb]; [|reflexivity].
  destruct (lookup "ancestor_ids" d) eqn:H6; cbn [bind andb]; [|reflexivity].
  destruct (lookup "num_parts" d) eqn:H7; cbn [bind andb].
  - destruct (lookup "ancestors" d) eqn:H8; cbn [bind];
      (eexists; split; [reflexivity|]; split; [reflexivity|]; split;
       [repeat constructor; cbn; now rewrite ?H1, ?H2, ?H3, ?H4, ?H5, ?H6, ?H7
       |reflexivity]).
  - destruct (lookup "ancestors" d); reflexivity.
Qed.

(** ** The constructor of Part *)

Lemma mapM_In_raises {A B} (f : A -> result B) l a :
  In a l -> (exists e, f a = Raise e) -> exists e, mapM f l = Raise e.
Proof.
  intros Hin Ha. induction l as [|x l IH]; [contradiction|]. cbn.
  destruct (f x) as [b|e] eqn:Hx; cbn; [|eauto].
  destruct Hin as [->|Hin].
  - destruct Ha as [e He]. congruence.
  - destruct (IH Hin) as [e ->]. cbn. eauto.
Qed.

(** The loop over [offers] or [specs] stores its list back and touches no
    other key. *)
Lemma convert_items_lookup d key body v :
  OctopartPart.convert_items (VDict d) key body = Return v ->
  exists d' seq',
    v = VDict d'
    /\ (forall k, k <> key -> lookup k d' = lookup k d)
    /\ for_each_in_place body (field d key (VList [])) = Return seq'
    /\ field d' key (VList []) = seq'.
Proof.
  unfold OctopartPart.convert_items. rewrite get_default_dict. cbn [bind].
  destruct (for_each_in_place body _) as [seq'|e] eqn:Hseq; cbn [bind contains];
    [|discriminate].
  destruct (dict_mem key d) eqn:Hmem; cbn [setitem].
  - intros [= <-]. exists (dict_set d key seq'), seq'.
    repeat split; auto.
    + intros k Hk. now apply lookup_dict_set_neq.
    + unfold field. now rewrite lookup_dict_set_eq.
  - intros [= <-]. exists d, seq'. repeat split; auto.
    unfold field, dict_mem in *. destruct (lookup key d); [discriminate|].
    cbn in Hseq. now injection Hseq as <-.
Qed.

Lemma convert_items_raises d key body l a :
  lookup key d = Some (VList l) ->
  In a l -> (exists e, body a = Raise e) ->
  exists e, OctopartPart.convert_items (VDict d) key body = Raise e.
Proof.
  intros Hk Hin Ha. unfold OctopartPart.convert_items. cbn [get_default].
  rewrite Hk. cbn [bind for_each_in_place].
  destruct (mapM_In_raises body l a Hin Ha) as [e ->]. cbn. eauto.
Qed.

(** The first steps of the constructor (lines 94-95), followed by
    [rest]: they raise, or pass on a dictionary that differs from the given
    one at [manufacturer] alone. *)
Lemma manufacturer_step d (rest : value -> result value) :
  let r := manufacturer <- subscript (VDict d) "manufacturer" ;;
           part_dict <- (if pytype_eqb (type_of manufacturer) DictType
                         then b <- OctopartBrand.new_from_dict manufacturer ;;
                              setitem (VDict d) "manufacturer" b
                         else Return (VDict d)) ;;
           rest part_dict in
  (exists e, r = Raise e)
  \/ exists m b d1,
       lookup "manufacturer" d = Some m
       /\ (if pytype_eqb (type_of m) DictType
           then OctopartBrand.new_from_dict m else Return m) = Return b
       /\ lookup "manufacturer" d1 = Some b
       /\ (forall k, k <> "manufacturer" -> lookup k d1 = lookup k d)
       /\ r = rest (VDict d1).
Proof.
  cbn zeta. cbn [subscript].
  destruct (lookup "manufacturer" d) as [m|] eqn:Hman; cbn [bind]; [|eauto].
  destruct (pytype_eqb (type_of m) DictType) eqn:Ht.
  - destruct (OctopartBrand.new_from_dict m) as [b|e] eqn:Hb; cbn [bind setitem];
      [|eauto].
    right. exists m, b, (dict_set d "manufacturer" b). rewrite Ht.
    repeat split; auto using lookup_dict_set_eq.
    intros k Hk. now apply lookup_dict_set_neq.
  - right. exists m, m, d. rewrite Ht. auto.
Qed.

Ltac step_manufacturer d :=
  unfold OctopartPart.init;
  match goal with
  | |- context [bind (subscript (VDict d) "manufacturer")
                  (fun _ => bind _ ?rest)] =>
      let e := fresh "e" in
      let He := fresh "He" in
      let m := fresh "m" in
      let b := fresh "b" in
      let d1 := fresh "d1" in
      let Hm := fresh "Hm" in
      let Hb := fresh "Hb" in
      let Hb1 := fresh "Hb1" in
      let H1 := fresh "H1" in
      destruct (manufacturer_step d rest)
        as [[e He]|(m & b & d1 & Hm & Hb & Hb1 & H1 & He)];
      cbv zeta in He; rewrite He; clear He; cbv beta
  end.

Lemma convert_offer_update_ts o :
  dict_mem "update_ts" o = true ->
  exists e, OctopartPart.convert_offer (VDict o) = Raise e.
Proof.
  intros Hts. unfold OctopartPart.convert_offer. cbn [subscript].
  destruct (lookup "supplier" o) as [sup|]; cbn [bind]; [|eauto].
  assert (Hstep : exists r,
             (if pytype_eqb (type_of sup) DictType
              then b <- OctopartBrand.new_from_dict sup ;;
                   setitem (VDict o) "supplier" b
              else Return (VDict o)) = r
             /\ match r with
                | Return (VDict o') => dict_mem "update_ts" o' = true
                | Return _ => False
                | Raise _ => True
                end).
  { eexists. split; [reflexivity|].
    destruct (pytype_eqb _ _); [|assumption].
    destruct (OctopartBrand.new_from_dict sup); cbn; [|exact I].
    unfold dict_mem in *. now rewrite lookup_dict_set_neq by discriminate. }
  destruct Hstep as (r & -> & Hr).
  destruct r as [[| | | | | |o'|]|e]; try contradiction; cbn [bind]; [|eauto].
  cbn [contains bind]. rewrite Hr. unfold dict_mem in Hr. cbn [subscript].
  destruct (lookup "update_ts" o') as [ts|]; [|discriminate]. cbn [bind].
  destruct (last_item ts) as [last|e]; cbn [bind]; [|eauto].
  destruct (eq_str last "Z").
  - destruct (drop_last ts) as [ts'|e]; cbn [bind setitem]; [|eauto].
    cbn [subscript]. rewrite lookup_dict_set_eq. cbn. eauto.
  - cbn [bind subscript].
    destruct (lookup "update_ts" o'); cbn; eauto.
Qed.

Lemma convert_spec_attribute s a :
  lookup "attribute" s = Some (VDict a) ->
  exists e, OctopartPart.convert_spec (VDict s) = Raise e.
Proof.
  intros Ha. unfold OctopartPart.convert_spec. cbn [subscript]. rewrite Ha.
  cbn [bind type_of pytype_eqb].
  destruct (part_attribute_new_from_dict_raises (VDict a)) as [e ->]. cbn. eauto.
Qed.

(** X12: a Part cannot be constructed from a mapping one of whose offers
    carries [update_ts]: the conversion of the timestamp calls
    [datetime.strptime] on the module, so the constructor raises. *)
Theorem part_offer_update_ts_raises d offers o :
  lookup "offers" d = Some (VList offers) ->
  In (VDict o) offers ->
  dict_mem "update_ts" o = true ->
  exists e, OctopartPart.init (VDict d) = Raise e.
Proof.
  intros Hoffers Hin Hts. step_manufacturer d; [eauto|].
  destruct (convert_items_raises d1 "offers" OctopartPart.convert_offer
              offers (VDict o)) as [e ->]; [| |now apply convert_offer_update_ts|].
  - rewrite H1 by discriminate. assumption.
  - assumption.
  - cbn. eauto.
Qed.

(** X13: a Part cannot be constructed from a mapping one of whose specs
    has an [attribute] sub-mapping: the conversion calls the constructor of
    PartAttribute, which never returns. *)
Theorem part_spec_attribute_raises d specs s a :
  lookup "specs" d = Some (VList specs) ->
  In (VDict s) specs ->
  lookup "attribute" s = Some (VDict a) ->
  exists e, OctopartPart.init (VDict d) = Raise e.
Proof.
  intros Hspecs Hin Ha. step_manufacturer d; [eauto|].
  destruct (OctopartPart.convert_items (VDict d1) "offers" _) as [v|e] eqn:Ho;
    cbn [bind]; [|eauto].
  apply convert_items_lookup in Ho. destruct Ho as (d2 & seq & -> & H2 & _).
  destruct (convert_items_raises d2 "specs" OctopartPart.convert_spec
              specs (VDict s)) as [e ->];
    [| |now apply (convert_spec_attribute s a)|].
  - rewrite H2, H1 by discriminate. assumption.
  - assumption.
  - cbn. eauto.
Qed.

(** X14: whenever the constructor of Part returns, the mapping supplied
    [uid], [mpn], [detail_url] and [manufacturer]; the Part holds the
    supplied [uid], [mpn] and [detail_url], for each optional field the
    supplied value or its default, as [manufacturer] the Brand made from
    the supplied sub-mapping (the supplied object itself when it is no
    mapping), and as [offers] and [specs] the supplied lists with every
    item converted. *)
Theorem part_init_attributes d part :
  OctopartPart.init (VDict d) = Return part ->
  type_of part = InstanceType ClsPart
  /\ Forall (fun k => exists x, lookup k d = Some x /\ getattr part k = Return x)
       ["uid"; "mpn"; "detail_url"]
  /\ Forall (fun kd => getattr part (fst kd) = Return (field d (fst kd) (snd kd)))
       part_defaults
  /\ (exists m,
        lookup "manufacturer" d = Some m
        /\ getattr part "manufacturer"
           = if pytype_eqb (type_of m) DictType
             then OctopartBrand.new_from_dict m else Return m)
  /\ getattr part "offers"
     = for_each_in_place OctopartPart.convert_offer (field d "offers" (VList []))
  /\ getattr part "specs"
     = for_each_in_place OctopartPart.convert_spec (field d "specs" (VList [])).
Proof.
  step_manufacturer d; [discriminate|].
  destruct (OctopartPart.convert_items (VDict d1) "offers" _) as [v|e] eqn:Ho;
    cbn [bind]; [|discriminate].
  apply convert_items_lookup in Ho.
  destruct Ho as (d2 & offers & -> & H2 & Hoffers & Hoffers2).
  destruct (OctopartPart.convert_items (VDict d2) "specs" _) as [v|e] eqn:Hs;
    cbn [bind]; [|discriminate].
  apply convert_items_lookup in Hs.
  destruct Hs as (d3 & specs & -> & H3 & Hspecs & Hspecs3).
  assert (H : forall k, k <> "manufacturer" -> k <> "offers" -> k <> "specs" ->
                        lookup k d3 = lookup k d).
  { intros k Ha Hb' Hc. now rewrite H3, H2, H1. }
  cbn [subscript].
  rewrite (H "uid"), (H "mpn"), (H "detail_url") by discriminate.
  rewrite (H3 "manufacturer"), (H2 "manufacturer"), Hb1 by discriminate.
  destruct (lookup "uid" d) as [uid|] eqn:Huid; cbn [bind]; [|discriminate].
  destruct (lookup "mpn" d) as [mpn|] eqn:Hmpn; cbn [bind]; [|discriminate].
  destruct (lookup "detail_url" d) as [url|] eqn:Hurl; cbn [bind]; [|discriminate].
  rewrite !get_default_dict. cbn [bind]. intros [= <-].
  split; [reflexivity|]. split; [|split; [|split; [|split]]].
  - repeat constructor; eexists; (split; [eassumption|reflexivity]).
  - repeat constructor; cbn; f_equal; apply field_same, H; discriminate.
  - exists m. split; [assumption|]. now rewrite Hb.
  - cbn. rewrite <- (field_same d d1 "offers") by (apply H1; discriminate).
    rewrite Hoffers. f_equal.
    rewrite (field_same d2 d3) by (apply H3; discriminate). assumption.
  - cbn. rewrite <- (field_same d d2 "specs")
      by (rewrite H2, H1 by discriminate; reflexivity).
    rewrite Hspecs. now f_equal.
Qed.

Lemma part_offer_update_ts_raises_witness :
  let brand := VDict [("id", VInt 370); ("displayname", VStr "Texas Instruments");
                      ("homepage_url", VStr "http://www.ti.com")] in
  let offer := [("supplier", brand); ("sku", VStr "296-1434-5-ND");
                ("update_ts", VStr "2011-08-01T12:00:00Z")] in
  exists e,
    OctopartPart.init
      (VDict [("uid", VInt 39619421); ("mpn", VStr "SN74S74N");
              ("detail_url", VStr "http://octopart.com/sn74s74n");
              ("manufacturer", brand); ("offers", VList [VDict offer])])
    = Raise e.
Proof.
  intros brand offer.
  apply (part_offer_update_ts_raises _ [VDict offer] offer).
  - reflexivity.
  - now left.
  - reflexivity.
Defined.

Lemma part_spec_attribute_raises_witness :
  let brand := VDict [("id", VInt 370); ("displayname", VStr "Texas Instruments");
                      ("homepage_url", VStr "http://www.ti.com")] in
  let attribute := [("fieldname", VStr "supply_voltage");
                    ("displayname", VStr "Supply Voltage");
                    ("type", VStr "number")] in
  let spec := [("attribute", VDict attribute); ("values", VList [VInt 5])] in
  exists e,
    OctopartPart.init
      (VDict [("uid", VInt 39619421); ("mpn", VStr "SN74S74N");
              ("detail_url", VStr "http://octopart.com/sn74s74n");
              ("manufacturer", brand); ("specs", VList [VDict spec])])
    = Raise e.
Proof.
  intros brand attribute spec.
  apply (part_spec_attribute_raises _ [VDict spec] spec attribute).
  - reflexivity.
  - now left.
  - reflexivity.
Defined.

Lemma part_init_attributes_witness :
  let brand := VObject ClsBrand
                 [("id", VInt 370); ("displayname", VStr "Texas Instruments");
                  ("homepage_url", VStr "http://www.ti.com")] in
  let d := [("uid", VInt 39619421); ("mpn", VStr "SN74S74N");
            ("detail_url", VStr "http://octopart.com/sn74s74n");
            ("manufacturer", brand); ("avg_price", VInt 2)] in
  exists part,
    OctopartPart.init (VDict d) = Return part
    /\ getattr part "manufacturer" = Return brand
    /\ getattr part "offers" = Return (VList []).
Proof.
  intros brand d. eexists. split; [reflexivity|].
  destruct (part_init_attributes d _ eq_refl)
    as (_ & _ & _ & (m & Hm & Hman) & Hoffers & _).
  split; [|exact Hoffers].
  rewrite Hman. injection Hm as <-. reflexivity.
Defined.

(** ** The transport and the responses *)

(** X15: the arguments that [__get] sends hold each client option that is
    set (true as a condition) under its name, in place of any argument of
    that name, and every other argument as the caller gave it; the keys
    stay distinct. *)
Theorem with_options_lookup self args :
  (forall k,
      lookup k (with_options self args)
      = match client_option self k with
        | Some v => if truthy v then Some v else lookup k args
        | None => lookup k args
        end)
  /\ (NoDup (keys args) -> NoDup (keys (with_options self args))).
Proof.
  split.
  - intros k. unfold with_options, client_option.
    destruct (String.eqb_spec k "apikey") as [->|Ha].
    { destruct (truthy (pretty_print self)), (truthy (callback self)),
        (truthy (apikey self));
        rewrite ?lookup_dict_set_neq by discriminate;
        rewrite ?lookup_dict_set_eq; reflexivity. }
    destruct (String.eqb_spec k "callback") as [->|Hc].
    { destruct (truthy (pretty_print self)), (truthy (callback self)),
        (truthy (apikey self));
        rewrite ?lookup_dict_set_neq by discriminate;
        rewrite ?lookup_dict_set_eq;
        rewrite ?lookup_dict_set_neq by discriminate; reflexivity. }
    destruct (String.eqb_spec k "pretty_print") as [->|Hp].
    { destruct (truthy (pretty_print self)), (truthy (callback self)),
        (truthy (apikey self));
        rewrite ?lookup_dict_set_eq;
        rewrite ?lookup_dict_set_neq by discriminate; reflexivity. }
    destruct (truthy (pretty_print self)), (truthy (callback self)),
      (truthy (apikey self));
      rewrite ?lookup_dict_set_neq by assumption; reflexivity.
  - intros Hnd. unfold with_options.
    destruct (truthy (pretty_print self)), (truthy (callback self)),
      (truthy (apikey self)); auto using NoDup_keys_dict_set.
Qed.

Lemma with_options_lookup_witness :
  let self := init (Some (VStr "0123abcd")) None (Some (VBool true)) in
  let args := [("q", VStr "resistor"); ("apikey", VStr "other")] in
  lookup "apikey" (with_options self args) = Some (VStr "0123abcd")
  /\ lookup "callback" (with_options self args) = None
  /\ NoDup (keys (with_options self args)).
Proof.
  intros self args.
  destruct (with_options_lookup self args) as [Hl Hnd].
  split; [|split].
  - rewrite Hl. reflexivity.
  - rewrite Hl. reflexivity.
  - apply Hnd. repeat constructor; cbn; intuition discriminate.
Defined.

Lemma prefix_append a b : String.prefix a (a ++ b) = true.
Proof.
  induction a as [|c a IH]; cbn; [now destruct b|].
  destruct (ascii_dec c c); [exact IH|contradiction].
Qed.

Lemma prefix_refl a : String.prefix a a = true.
Proof.
  induction a as [|c a IH]; cbn; [reflexivity|].
  destruct (ascii_dec c c); [exact IH|contradiction].
Qed.

(** X16: [__get] issues at most one request, to a URL that starts with the
    API base followed by the method path; when it issues none (the query
    string could not be built) it raises, and otherwise its outcome is the
    parsed response of that request; with no argument and no client option
    the URL is the base and the method path alone. *)
Theorem get_request rt self method args :
  let '(args', (urls, r)) := get rt self method args in
  args' = with_options self args
  /\ (List.length urls <= 1)%nat
  /\ Forall (fun url => String.prefix (api_url ++ method) url = true) urls
  /\ match urls with
     | [] => exists e, r = Raise e
     | url :: _ => r = (response <- urlopen_read rt url ;; json_loads rt response)
     end
  /\ (with_options self args = [] -> urls = [(api_url ++ method)%string]).
Proof.
  unfold get, request_url.
  destruct (with_options self args) as [|kv args'] eqn:Hargs; cbn [List.length Nat.ltb Nat.leb].
  - split; [reflexivity|]. split; [cbn; lia|].
    split; [repeat constructor; apply prefix_refl|]. split; reflexivity.
  - destruct (mapM (arg_string rt) (kv :: args')) as [strings|e]; cbn [bind].
    + split; [reflexivity|]. split; [cbn; lia|].
      split; [repeat constructor; apply prefix_append|].
      split; [reflexivity|discriminate].
    + split; [reflexivity|]. split; [cbn; lia|].
      split; [constructor|]. split; [eauto|discriminate].
Qed.

Lemma get_request_witness :
  let rt := answering (VDict []) in
  get rt anonymous "categories/get" []
  = ([], (["http://octopart.com/api/v2/categories/get"], Return (VDict []))).
Proof.
  intros rt.
  pose proof (get_request rt anonymous "categories/get" []) as H.
  destruct (get rt anonymous "categories/get" []) as [args' [urls r]].
  destruct H as (-> & _ & _ & Hr & Hurls).
  rewrite (Hurls eq_refl) in Hr |- *. rewrite Hr. reflexivity.
Defined.

(** X17: on a response that is false as a condition, every method returns
    its empty result: [None] from categories/get, parts/get, parts/match
    and partattributes/get, a pair of empty lists from parts/search, an
    empty list from the others. *)
Theorem empty_response e args json_obj :
  truthy json_obj = false ->
  respond e args (Return json_obj) = Return (empty_result e).
Proof.
  intros H.
  destruct e; cbn [respond empty_result];
    unfold categories_get_respond, categories_get_multi_respond,
      categories_search_respond, parts_get_respond, parts_get_multi_respond,
      parts_search_respond, parts_suggest_respond, parts_match_respond,
      partattributes_get_respond, partattributes_get_multi_respond,
      bom_match_respond;
    now rewrite H.
Qed.

Lemma empty_response_witness :
  respond PartsSearch VNone (Return (VDict [])) = Return (VTuple [VList []; VList []])
  /\ respond PartsGet VNone (Return VNone) = Return VNone
  /\ respond BomMatch VNone (Return (VList [])) = Return (VList []).
Proof.
  split; [|split].
  - apply (empty_response PartsSearch). reflexivity.
  - apply (empty_response PartsGet). reflexivity.
  - apply (empty_response BomMatch). reflexivity.
Defined.

Lemma category_new_from_dict_category v :
  if is_category v
  then OctopartCategory.new_from_dict v = Return (category_of v)
  else exists e,
         OctopartCategory.new_from_dict v = Raise e
         /\ (e = KeyError \/ e = TypeError).
Proof.
  assert (Hr : forall e, e = KeyError \/ e = TypeError ->
                         exists e', (Raise e : result value) = Raise e'
                                    /\ (e' = KeyError \/ e' = TypeError))
    by eauto.
  destruct v as [| | | | | |d|]; cbn [is_category]; try (apply Hr; auto).
  unfold supplies, category_required, OctopartCategory.new_from_dict, dict_mem,
    category_of, field.
  cbn [forallb subscript get_default].
  destruct (lookup "id" d); cbn [bind andb]; [|apply Hr; auto].
  destruct (lookup "parent_id" d); cbn [bind andb]; [|apply Hr; auto].
  destruct (lookup "nodename" d); cbn [bind andb]; [|apply Hr; auto].
  destruct (lookup "images" d); cbn [bind andb]; [|apply Hr; auto].
  destruct (lookup "children_ids" d); cbn [bind andb]; [|apply Hr; auto].
  destruct (lookup "ancestor_ids" d); cbn [bind andb]; [|apply Hr; auto].
  destruct (lookup "num_parts" d); destruct (lookup "ancestors" d);
    cbn [bind andb]; try reflexivity; apply Hr; auto.
Qed.

Lemma mapM_first_Raise {A B} (f : A -> result B) (P : exn -> Prop) l :
  (forall a, In a l -> match f a with Raise e => P e | Return _ => True end) ->
  match mapM f l with Raise e => P e | Return _ => True end.
Proof.
  induction l as [|a l IH]; intros H; cbn; [exact I|].
  pose proof (H a (or_introl eq_refl)) as Ha.
  destruct (f a); cbn; [|exact Ha].
  specialize (IH (fun x Hx => H x (or_intror Hx))).
  destruct (mapM f l); cbn; [exact I|exact IH].
Qed.

(** X18: on a non-empty list response, categories/get_multi returns one
    Category per mapping, in order, when every item supplies the required
    fields; when an item does not, the call raises a key error or a type
    error and returns no list. *)
Theorem categories_get_multi_all_or_nothing args items :
  items <> [] ->
  if forallb is_category items
  then categories_get_multi_respond args (Return (VList items))
       = Return (VList (map category_of items))
  else exists e,
         categories_get_multi_respond args (Return (VList items)) = Raise e
         /\ (e = KeyError \/ e = TypeError).
Proof.
  intros Hne. unfold categories_get_multi_respond.
  destruct items as [|x items]; [contradiction|]. cbn [truthy iterate bind].
  destruct (forallb is_category (x :: items)) eqn:Hall.
  - rewrite (mapM_ext_Return _ category_of); [reflexivity|].
    apply forallb_Forall in Hall. eapply Forall_impl; [|exact Hall].
    intros v Hv. pose proof (category_new_from_dict_category v) as H.
    now rewrite Hv in H.
  - destruct (mapM OctopartCategory.new_from_dict (x :: items)) as [r|e] eqn:Hm.
    + exfalso. apply mapM_Return in Hm.
      assert (Ht : forallb is_category (x :: items) = true); [|congruence].
      apply forallb_forall. intros v Hv. rewrite Forall_forall in Hm.
      destruct (Hm v Hv) as [c Hc].
      pose proof (category_new_from_dict_category v) as H.
      destruct (is_category v); [reflexivity|].
      destruct H as (e & He & _). congruence.
    + cbn. exists e. split; [reflexivity|].
      pose proof (mapM_first_Raise OctopartCategory.new_from_dict
                    (fun e => e = KeyError \/ e = TypeError) (x :: items)) as H.
      rewrite Hm in H. apply H. intros v _.
      pose proof (category_new_from_dict_category v) as Hv.
      destruct (is_category v).
      * now rewrite Hv.
      * destruct Hv as (e' & -> & He'). exact He'.
Qed.

Lemma categories_get_multi_all_or_nothing_witness :
  let category := VDict [("id", VInt 4179); ("parent_id", VInt 4174);
                         ("nodename", VStr "Capacitors"); ("images", VList []);
                         ("children_ids", VList []);
                         ("ancestor_ids", VList [VInt 4174]);
                         ("num_parts", VInt 12)] in
  categories_get_multi_respond VNone (Return (VList [category]))
  = Return (VList [category_of category])
  /\ exists e,
       categories_get_multi_respond VNone
         (Return (VList [category; VDict [("id", VInt 1)]])) = Raise e
       /\ (e = KeyError \/ e = TypeError).
Proof.
  intros category. split.
  - apply (categories_get_multi_all_or_nothing VNone [category]). discriminate.
  - apply (categories_get_multi_all_or_nothing VNone
             [category; VDict [("id", VInt 1)]]). discriminate.
Defined.

Lemma mapM_all_raise {A B} (f : A -> result B) l r :
  (forall a, exists e, f a = Raise e) -> mapM f l = Return r -> l = [] /\ r = [].
Proof.
  intros H. destruct l as [|a l]; cbn.
  - intros [= <-]. auto.
  - destruct (H a) as [e ->]. discriminate.
Qed.

(** X19: whatever parts/search returns has an empty drilldown list: the
    drilldown of the response is read only when [drilldown.include] is
    set, and then each entry needs a PartAttribute, which cannot be
    constructed. *)
Theorem parts_search_drilldown_empty args json_obj v :
  parts_search_respond args (Return json_obj) = Return v ->
  exists parts, v = VTuple [VList parts; VList []].
Proof.
  unfold parts_search_respond.
  destruct (truthy json_obj); [|intros [= <-]; eauto].
  destruct (subscript json_obj "results") as [results|e]; cbn [bind];
    [|discriminate].
  destruct (iterate results) as [items|e]; cbn [bind]; [|discriminate].
  destruct (mapM _ items) as [parts|e]; cbn [bind]; [|discriminate].
  destruct (get_default args "drilldown.include" VNone) as [include|e];
    cbn [bind]; [|discriminate].
  destruct (truthy include); [|intros [= <-]; eauto].
  destruct (subscript json_obj "drilldown") as [drills|e]; cbn [bind];
    [|discriminate].
  destruct (iterate drills) as [ds|e]; cbn [bind]; [|discriminate].
  destruct (mapM _ ds) as [drilldown|e] eqn:Hm; cbn [bind]; [|discriminate].
  apply mapM_all_raise in Hm.
  - destruct Hm as [_ ->]. intros [= <-]. eauto.
  - intros drill. destruct (subscript drill "attribute") as [a|e]; cbn [bind];
      [|eauto].
    destruct (part_attribute_new_from_dict_raises a) as [e ->]. cbn. eauto.
Qed.

Lemma parts_search_drilldown_empty_witness :
  let json_obj := VDict [("results", VList []); ("drilldown", VList [])] in
  let args := VDict [("q", VStr "resistor"); ("drilldown.include", VBool true)] in
  exists parts,
    parts_search_respond args (Return json_obj)
    = Return (VTuple [VList parts; VList []]).
Proof.
  intros json_obj args.
  destruct (parts_search_drilldown_empty args json_obj
              (VTuple [VList []; VList []]) eq_refl) as [parts Hp].
  exists parts. now rewrite <- Hp.
Defined.

(** X20: whatever bom/match makes of a response holds no part: every
    result it returns has an empty [items] list, since an item is
    converted by [OctopartPart(part)], where [part] is unbound. *)
Theorem bom_match_no_part args json_obj v :
  bom_match_respond args (Return json_obj) = Return v ->
  exists results,
    v = VList results
    /\ Forall (fun result => subscript result "items" = Return (VList []))
         results.
Proof.
  unfold bom_match_respond.
  destruct (truthy json_obj); [|intros [= <-]; eauto].
  destruct (subscript json_obj "results") as [rs|e]; cbn [bind]; [|discriminate].
  destruct (iterate rs) as [rs'|e]; cbn [bind]; [|discriminate].
  destruct (mapM _ rs') as [results|e] eqn:Hm; cbn [bind]; [|discriminate].
  intros [= <-]. exists results. split; [reflexivity|].
  apply mapM_Forall2 in Hm.
  eapply (Forall2_Forall_r _ (fun _ => True)); [|clear Hm|exact Hm].
  - apply Forall_forall. auto.
  - cbn beta. intros result out _.
    destruct (subscript result "items") as [its|e]; cbn [bind]; [|discriminate].
    destruct (iterate its) as [its'|e]; cbn [bind]; [|discriminate].
    destruct (mapM _ its') as [items|e] eqn:Hitems; cbn [bind]; [|discriminate].
    apply mapM_all_raise in Hitems; [|intros item; cbn; eauto].
    destruct Hitems as [_ ->].
    destruct (get_default result "reference" _); cbn [bind]; [|discriminate].
    destruct (subscript result "status"); cbn [bind]; [|discriminate].
    intros [= <-]. reflexivity.
Qed.

Lemma bom_match_no_part_witness :
  let result := VDict [("items", VList []); ("status", VStr "no match")] in
  let out := VDict [("items", VList []); ("reference", VStr "");
                    ("status", VStr "no match")] in
  bom_match_respond VNone (Return (VDict [("results", VList [result])]))
  = Return (VList [out])
  /\ exists results,
       VList [out] = VList results
       /\ Forall (fun result => subscript result "items" = Return (VList []))
            results.
Proof.
  intros result out. split; [reflexivity|].
  apply (bom_match_no_part VNone (VDict [("results", VList [result])])).
  reflexivity.
Defined.
